(** * Inventory Manager: a shallow embedding of [Source.cpp]

    The development follows the C++ source class by class.

    - [int] is the 32-bit two's complement integer of the target; values are
      carried as [Z] and every arithmetic operation on them wraps around
      ([wrap_int]).  C++ leaves signed overflow undefined; the wrap-around is
      what the arithmetic instructions emitted for [+=] and [-=] do.
    - [double] is IEEE 754 binary64 with round-to-nearest-even, taken from the
      executable specification of the Standard Library ([SpecFloat]).
    - [std::map<string, shared_ptr<Product>>] is the list of its entries in
      iteration order, that is, in ascending key order; [map_insert] puts a
      new entry at its sorted position.  Every entry is keyed by the name
      stored in the product it points to, and that name is never assigned
      after construction, so two entries never share one object: entries are
      modelled as values and a mutation through [it->second] writes the new
      value back at the entry ([map_store]).
    - The two files and the console are fields of the state.  A file is the
      list of the lines written to it (one element for each [<< ... << endl]),
      and opening a file for writing is assumed to succeed.  A line of
      [transaction_log.txt] is kept as the record of the values streamed into
      it: the time read from [std::time] and the quantity or percentage, whose
      textual form is decided by [put_time] and by the stream.
    - [displayInventory], which only prints, and the console dialogue of
      [main] are left out. *)

From Stdlib Require Import ZArith List String Ascii Bool Lia Sorted.
From Stdlib Require Import SpecFloat DecimalString OrderedTypeEx Permutation.
Import ListNotations.

Local Open Scope string_scope.
Local Open Scope list_scope.
Local Open Scope Z_scope.

(** ** Machine integers *)

Definition INT_MIN : Z := -2147483648.
Definition INT_MAX : Z := 2147483647.

Definition int_range (z : Z) : Prop := INT_MIN <= z <= INT_MAX.

Definition wrap_int (z : Z) : Z := (z - INT_MIN) mod 4294967296 + INT_MIN.

Definition int_add (a b : Z) : Z := wrap_int (a + b).
Definition int_sub (a b : Z) : Z := wrap_int (a - b).

(** ** Doubles *)

Definition double : Type := spec_float.

Definition prec : Z := 53.
Definition emax : Z := 1024.

Definition double_of_int (z : Z) : double := binary_normalize prec emax z 0 false.
Definition double_sub : double -> double -> double := SFsub prec emax.
Definition double_mul : double -> double -> double := SFmul prec emax.
Definition double_div : double -> double -> double := SFdiv prec emax.
Definition double_ltb : double -> double -> bool := SFltb.

(** ** Text output *)

Definition newline : string := String (ascii_of_nat 10) EmptyString.

(** [operator<<(int)]: decimal digits, with a leading [-] for negatives. *)
Definition string_of_int (z : Z) : string := NilZero.string_of_int (Z.to_int z).

(** ** class Product and its two subclasses *)

Inductive Kind : Type :=
| Electronics (warrantyPeriod : Z)
| Food (expirationDate : string).

Record Product : Type := mkProduct {
  productName : string;
  price : double;
  stockQuantity : Z;
  kind : Kind
}.

Definition Product_applyDiscount (percentage : double) (p : Product) : Product :=
  {| productName := productName p;
     price := double_sub (price p)
                (double_mul (price p) (double_div percentage (double_of_int 100)));
     stockQuantity := stockQuantity p;
     kind := kind p |}.

Definition Product_updateStock (quantity : Z) (p : Product) : Product :=
  {| productName := productName p;
     price := price p;
     stockQuantity := int_add (stockQuantity p) quantity;
     kind := kind p |}.

Definition Product_sellProduct (quantity : Z) (p : Product) : bool * Product :=
  if stockQuantity p >=? quantity then
    (true,
     {| productName := productName p;
        price := price p;
        stockQuantity := int_sub (stockQuantity p) quantity;
        kind := kind p |})
  else (false, p).

Definition getStockQuantity (p : Product) : Z := stockQuantity p.
Definition getProductName (p : Product) : string := productName p.

Definition getProductType (p : Product) : string :=
  match kind p with
  | Electronics _ => "Electronics"
  | Food _ => "Food"
  end.

(** ** std::map<string, shared_ptr<Product>> *)

Definition Inventory : Type := list (string * Product).

Fixpoint map_find (name : string) (inv : Inventory) : option Product :=
  match inv with
  | [] => None
  | (k, v) :: rest => if String.eqb k name then Some v else map_find name rest
  end.

(** [inventory[name] = product] *)
Fixpoint map_insert (name : string) (product : Product) (inv : Inventory) : Inventory :=
  match inv with
  | [] => [(name, product)]
  | (k, v) :: rest =>
      match String.compare name k with
      | Lt => (name, product) :: (k, v) :: rest
      | Eq => (k, product) :: rest
      | Gt => (k, v) :: map_insert name product rest
      end
  end.

(** The object behind [it->second], where [it = inventory.find(name)], takes
    the value [product]. *)
Fixpoint map_store (name : string) (product : Product) (inv : Inventory) : Inventory :=
  match inv with
  | [] => []
  | (k, v) :: rest =>
      if String.eqb k name then (k, product) :: rest
      else (k, v) :: map_store name product rest
  end.

Definition keys (inv : Inventory) : list string := map fst inv.

Definition key_lt (a b : string) : Prop := String.compare a b = Lt.

(** ** Files, console and clock *)

Inductive Magnitude : Type :=
| Quantity (quantity : Z)
| Discount (percentage : double).

Record LogLine : Type := mkLogLine {
  log_time : Z;
  log_type : string;
  log_productName : string;
  log_value : Magnitude
}.

Record State : Type := mkState {
  inventory : Inventory;
  transaction_log_txt : list LogLine;
  inventory_txt : list string;
  cout : string;
  time_now : Z
}.

Definition set_inventory (inv : Inventory) (st : State) : State :=
  {| inventory := inv;
     transaction_log_txt := transaction_log_txt st;
     inventory_txt := inventory_txt st;
     cout := cout st;
     time_now := time_now st |}.

Definition append_log (l : LogLine) (st : State) : State :=
  {| inventory := inventory st;
     transaction_log_txt := transaction_log_txt st ++ [l];
     inventory_txt := inventory_txt st;
     cout := cout st;
     time_now := time_now st |}.

Definition rewrite_inventory_txt (lines : list string) (st : State) : State :=
  {| inventory := inventory st;
     transaction_log_txt := transaction_log_txt st;
     inventory_txt := lines;
     cout := cout st;
     time_now := time_now st |}.

Definition print (s : string) (st : State) : State :=
  {| inventory := inventory st;
     transaction_log_txt := transaction_log_txt st;
     inventory_txt := inventory_txt st;
     cout := (cout st ++ s)%string;
     time_now := time_now st |}.

(** ** class InventoryManager *)

Definition restockAmount : Z := 10.

(** [logTransaction(const string&, const string&, int)] *)
Definition logTransaction_int (type name : string) (quantity : Z) (st : State) : State :=
  append_log {| log_time := time_now st; log_type := type;
                log_productName := name; log_value := Quantity quantity |} st.

(** [logTransaction(const string&, const string&, double)] *)
Definition logTransaction_double (type name : string) (percentage : double)
    (st : State) : State :=
  append_log {| log_time := time_now st; log_type := type;
                log_productName := name; log_value := Discount percentage |} st.

Definition addProduct (product : Product) (st : State) : State :=
  let name := getProductName product in
  match map_find name (inventory st) with
  | Some _ =>
      print ("Product with name '" ++ name ++ "' already exists. Skipping..."
             ++ newline)%string st
  | None => set_inventory (map_insert name product (inventory st)) st
  end.

Definition InventoryManager_sellProduct (name : string) (quantity : Z) (st : State)
    : bool * State :=
  match map_find name (inventory st) with
  | Some p =>
      let (success, p') := Product_sellProduct quantity p in
      let st1 := set_inventory (map_store name p' (inventory st)) st in
      if success then (success, logTransaction_int "Sale" name quantity st1)
      else (success, st1)
  | None => (false, st)
  end.

Definition InventoryManager_applyDiscount (name : string) (percentage : double)
    (st : State) : State :=
  match map_find name (inventory st) with
  | Some p =>
      let st1 :=
        set_inventory
          (map_store name (Product_applyDiscount percentage p) (inventory st)) st in
      logTransaction_double "Discount" name percentage st1
  | None => print ("Product not found." ++ newline)%string st
  end.

Definition snapshot_line (entry : string * Product) : string :=
  (fst entry ++ " | " ++ getProductType (snd entry) ++ " | "
   ++ string_of_int (getStockQuantity (snd entry)) ++ " | ")%string.

Definition saveInventoryToFile (st : State) : State :=
  rewrite_inventory_txt (map snapshot_line (inventory st)) st.

(** The loop body is empty: the file is read and nothing is rebuilt. *)
Definition loadInventoryFromFile (st : State) : State := st.

(** [restockProduct] works on the object it is handed; the new value comes
    back together with the files and the console. *)
Definition restockProduct (product : Product) (st : State) : Product * State :=
  let product' := Product_updateStock restockAmount product in
  let st1 := logTransaction_int "Restock" (getProductName product') restockAmount st in
  (product',
   print ("Restocked " ++ getProductName product' ++ " by "
          ++ string_of_int restockAmount ++ " units." ++ newline)%string st1).

(** The range-for of [checkAndRestock]: the entries are visited in key order,
    the files and the console are threaded through the iterations. *)
Fixpoint restock_loop (threshold : Z) (entries : Inventory) (st : State)
    : Inventory * State :=
  match entries with
  | [] => ([], st)
  | (k, v) :: rest =>
      let (v', st1) :=
        if getStockQuantity v <? threshold then restockProduct v st else (v, st) in
      let (rest', st2) := restock_loop threshold rest st1 in
      ((k, v') :: rest', st2)
  end.

Definition checkAndRestock (threshold : Z) (st : State) : State :=
  let (inv', st') := restock_loop threshold (inventory st) st in
  set_inventory inv' st'.

(** What the loop does to one entry, which entries it restocks, and the
    line it writes for each of them. *)
Definition restock_entry (threshold : Z) (e : string * Product) : string * Product :=
  (fst e,
   if getStockQuantity (snd e) <? threshold
   then Product_updateStock restockAmount (snd e) else snd e).

Definition below (threshold : Z) (e : string * Product) : bool :=
  getStockQuantity (snd e) <? threshold.

Definition restock_line (t : Z) (e : string * Product) : LogLine :=
  {| log_time := t; log_type := "Restock";
     log_productName := productName (snd e); log_value := Quantity restockAmount |}.

(** ** Sessions: sequences of calls on one manager *)

Inductive Call : Type :=
| CallAddProduct (product : Product)
| CallSellProduct (name : string) (quantity : Z)
| CallApplyDiscount (name : string) (percentage : double)
| CallCheckAndRestock (threshold : Z)
| CallSaveInventoryToFile
| CallLoadInventoryFromFile.

Definition call (c : Call) (st : State) : State :=
  match c with
  | CallAddProduct product => addProduct product st
  | CallSellProduct name quantity => snd (InventoryManager_sellProduct name quantity st)
  | CallApplyDiscount name percentage => InventoryManager_applyDiscount name percentage st
  | CallCheckAndRestock threshold => checkAndRestock threshold st
  | CallSaveInventoryToFile => saveInventoryToFile st
  | CallLoadInventoryFromFile => loadInventoryFromFile st
  end.

Definition run (calls : list Call) (st : State) : State :=
  fold_left (fun s c => call c s) calls st.

(** A manager as [main] creates it: an empty map, whatever the two files
    held before the process started, nothing printed yet. *)
Definition start (log : list LogLine) (snapshot : list string) (t : Z) : State :=
  {| inventory := [];
     transaction_log_txt := log;
     inventory_txt := snapshot;
     cout := "";
     time_now := t |}.

(** Calls made directly on one product object. *)
Inductive ProductCall : Type :=
| CallUpdateStock (quantity : Z)
| CallProductSell (quantity : Z).

Definition product_call (c : ProductCall) (p : Product) : Product :=
  match c with
  | CallUpdateStock quantity => Product_updateStock quantity p
  | CallProductSell quantity => snd (Product_sellProduct quantity p)
  end.

Definition product_run (calls : list ProductCall) (p : Product) : Product :=
  fold_left (fun q c => product_call c q) calls p.

(** Every entry sits under the name of its own product. *)
Definition keyed_by_name (inv : Inventory) : Prop :=
  Forall (fun e => fst e = productName (snd e)) inv.

(** ** Sample data *)

Definition item_A : Product :=
  {| productName := "A"; price := double_of_int 3; stockQuantity := 5;
     kind := Food "2025-06-30" |}.

Definition item_B : Product :=
  {| productName := "B"; price := double_of_int 7; stockQuantity := 12;
     kind := Food "2025-07-15" |}.

Definition gadget : Product :=
  {| productName := "Gadget"; price := double_of_int 100; stockQuantity := 4;
     kind := Electronics 24 |}.

Definition shop : State :=
  run [CallAddProduct item_B; CallAddProduct gadget; CallAddProduct item_A]
      (start [] [] 1746800000).

Definition bulk : Product :=
  {| productName := "Bulk"; price := double_of_int 2; stockQuantity := 2147483640;
     kind := Electronics 0 |}.

Definition warehouse : State :=
  run [CallAddProduct bulk] (start [] [] 1746800000).

(** ** Reading a session *)

(** The first product of a given name that a sequence of calls adds. *)
Fixpoint first_added (name : string) (calls : list Call) : option Product :=
  match calls with
  | [] => None
  | CallAddProduct product :: rest =>
      if String.eqb (getProductName product) name then Some product
      else first_added name rest
  | _ :: rest => first_added name rest
  end.

(** What [restockProduct] prints for an entry. *)
Definition restock_message (e : string * Product) : string :=
  ("Restocked " ++ productName (snd e) ++ " by " ++ string_of_int restockAmount
   ++ " units." ++ newline)%string.

Definition join (texts : list string) : string :=
  fold_right String.append EmptyString texts.

(** The bounds [main] puts on what it reads before it calls the manager: a
    stock of at least 0, a quantity to sell of at least 1.  A restock
    threshold of at most [INT_MAX - 9] keeps [stock + restockAmount] an
    [int] for every product below it. *)
Definition validated (c : Call) : Prop :=
  match c with
  | CallAddProduct product => 0 <= stockQuantity product <= INT_MAX
  | CallSellProduct _ quantity => 1 <= quantity
  | CallCheckAndRestock threshold => threshold <= INT_MAX - 9
  | _ => True
  end.

Definition stock_in_range (e : string * Product) : Prop :=
  0 <= stockQuantity (snd e) <= INT_MAX.

(** The three shapes of a line of [transaction_log.txt]. *)
Definition log_line_shape (l : LogLine) : Prop :=
  (log_type l = "Sale" /\ exists quantity, log_value l = Quantity quantity)
  \/ (log_type l = "Discount" /\ exists percentage, log_value l = Discount percentage)
  \/ (log_type l = "Restock" /\ log_value l = Quantity restockAmount).

(** * Properties *)

(** ** Machine integers *)

Ltac int_bounds := unfold int_range, INT_MIN, INT_MAX in *; simpl in *; lia.

Lemma wrap_int_id (z : Z) : int_range z -> wrap_int z = z.
Proof.
  unfold int_range, wrap_int, INT_MIN, INT_MAX. intros H.
  rewrite Z.mod_small by lia. lia.
Qed.

Lemma wrap_int_range (z : Z) : int_range (wrap_int z).
Proof.
  unfold int_range, wrap_int, INT_MIN, INT_MAX.
  pose proof (Z.mod_pos_bound (z - -2147483648) 4294967296 ltac:(lia)). lia.
Qed.

(** Past the ends of the range the subtraction and the addition come back
    at the other end. *)
Remark int_arithmetic_wraps :
  int_sub INT_MAX (-1) = INT_MIN /\ int_add (INT_MAX - 3) 10 = INT_MIN + 6.
Proof. split; reflexivity. Qed.

Lemma geb_true (a b : Z) : b <= a -> (a >=? b) = true.
Proof. intros H. rewrite Z.geb_leb. now apply Z.leb_le. Qed.

Lemma geb_false (a b : Z) : a < b -> (a >=? b) = false.
Proof. intros H. rewrite Z.geb_leb. now apply Z.leb_gt. Qed.

Lemma product_call_range (c : ProductCall) (p : Product) :
  int_range (stockQuantity p) -> int_range (stockQuantity (product_call c p)).
Proof.
  intros H. destruct c as [q | q]; simpl.
  - apply wrap_int_range.
  - unfold Product_sellProduct. destruct (stockQuantity p >=? q); simpl.
    + apply wrap_int_range.
    + exact H.
Qed.

Lemma product_run_range (calls : list ProductCall) :
  forall p, int_range (stockQuantity p) ->
            int_range (stockQuantity (product_run calls p)).
Proof.
  induction calls as [| c calls IH]; intros p H; simpl.
  - exact H.
  - apply IH. now apply product_call_range.
Qed.

(** ** The map *)

Lemma map_store_same (name : string) (p : Product) (inv : Inventory) :
  map_find name inv = Some p -> map_store name p inv = inv.
Proof.
  induction inv as [| [k v] rest IH]; simpl; intros H.
  - reflexivity.
  - destruct (String.eqb k name).
    + now inversion H.
    + now rewrite IH.
Qed.

Lemma map_find_store (name : string) (q : Product) (inv : Inventory) :
  map_find name (map_store name q inv)
  = match map_find name inv with Some _ => Some q | None => None end.
Proof.
  induction inv as [| [k v] rest IH]; simpl.
  - reflexivity.
  - destruct (String.eqb k name) eqn:E; simpl; rewrite E.
    + reflexivity.
    + exact IH.
Qed.

Lemma map_find_store_other (name other : string) (q : Product) (inv : Inventory) :
  other <> name -> map_find other (map_store name q inv) = map_find other inv.
Proof.
  intros Hne. induction inv as [| [k v] rest IH]; simpl.
  - reflexivity.
  - destruct (String.eqb k name) eqn:E; simpl.
    + apply String.eqb_eq in E. subst k.
      destruct (String.eqb name other) eqn:E'.
      * apply String.eqb_eq in E'. congruence.
      * reflexivity.
    + destruct (String.eqb k other); [reflexivity | exact IH].
Qed.

Lemma keys_store (name : string) (q : Product) (inv : Inventory) :
  keys (map_store name q inv) = keys inv.
Proof.
  induction inv as [| [k v] rest IH]; simpl.
  - reflexivity.
  - destruct (String.eqb k name); simpl; [reflexivity | now rewrite IH].
Qed.

Lemma compare_refl (s : string) : String.compare s s = Eq.
Proof.
  destruct (String.compare s s) eqn:E; [reflexivity | |];
    pose proof (String.compare_antisym s s) as A; rewrite E in A; discriminate.
Qed.

Lemma compare_neq (a b : string) : String.compare a b <> Eq -> String.eqb b a = false.
Proof.
  intros H. apply String.eqb_neq. intros ->. apply H, compare_refl.
Qed.

Lemma map_find_insert (name : string) (p : Product) (inv : Inventory) :
  map_find name (map_insert name p inv) = Some p.
Proof.
  induction inv as [| [k v] rest IH]; simpl.
  - now rewrite String.eqb_refl.
  - destruct (String.compare name k) eqn:E; simpl.
    + apply String.compare_eq_iff in E. subst k. now rewrite String.eqb_refl.
    + now rewrite String.eqb_refl.
    + rewrite compare_neq by congruence. exact IH.
Qed.

Lemma map_find_insert_other (name other : string) (p : Product) (inv : Inventory) :
  other <> name -> map_find other (map_insert name p inv) = map_find other inv.
Proof.
  intros Hne. induction inv as [| [k v] rest IH]; simpl.
  - destruct (String.eqb name other) eqn:E; [| reflexivity].
    apply String.eqb_eq in E. congruence.
  - destruct (String.compare name k) eqn:E; simpl.
    + apply String.compare_eq_iff in E. subst k.
      destruct (String.eqb name other) eqn:E'; [| reflexivity].
      apply String.eqb_eq in E'. congruence.
    + destruct (String.eqb name other) eqn:E'; [| reflexivity].
      apply String.eqb_eq in E'. congruence.
    + destruct (String.eqb k other); [reflexivity | exact IH].
Qed.

Lemma key_lt_trans (a b c : string) : key_lt a b -> key_lt b c -> key_lt a c.
Proof.
  unfold key_lt. intros H1 H2.
  apply String_as_OT.cmp_lt. apply String_as_OT.cmp_lt in H1, H2.
  exact (String_as_OT.lt_trans _ _ _ H1 H2).
Qed.

Lemma compare_gt_lt (a b : string) : String.compare a b = Gt -> key_lt b a.
Proof.
  unfold key_lt. intros H. rewrite String.compare_antisym, H. reflexivity.
Qed.

Lemma Forall_keys_insert (P : string -> Prop) (name : string) (p : Product)
    (inv : Inventory) :
  P name -> Forall P (keys inv) -> Forall P (keys (map_insert name p inv)).
Proof.
  intros Hn. induction inv as [| [k v] rest IH]; simpl; intros H.
  - constructor; [exact Hn | constructor].
  - inversion H as [| ? ? Hk Hrest]; subst.
    destruct (String.compare name k); simpl.
    + constructor; assumption.
    + constructor; [exact Hn | constructor; assumption].
    + constructor; [exact Hk | now apply IH].
Qed.

Lemma sorted_insert (name : string) (p : Product) (inv : Inventory) :
  StronglySorted key_lt (keys inv) ->
  StronglySorted key_lt (keys (map_insert name p inv)).
Proof.
  induction inv as [| [k v] rest IH]; simpl; intros H.
  - constructor; [constructor | constructor].
  - inversion H as [| ? ? Hs Hall]; subst.
    destruct (String.compare name k) eqn:E; simpl.
    + constructor; assumption.
    + constructor; [exact H |].
      constructor; [exact E |].
      eapply Forall_impl; [| exact Hall].
      intros x Hx. exact (key_lt_trans _ _ _ E Hx).
    + constructor; [now apply IH |].
      apply Forall_keys_insert; [now apply compare_gt_lt | exact Hall].
Qed.

(** ** The restocking loop *)

Lemma restock_loop_inventory (threshold : Z) (entries : Inventory) :
  forall st, fst (restock_loop threshold entries st) = map (restock_entry threshold) entries.
Proof.
  induction entries as [| [k v] rest IH]; intros st; simpl.
  - reflexivity.
  - unfold restock_entry at 1; simpl.
    destruct (getStockQuantity v <? threshold); simpl.
    + specialize (IH (snd (restockProduct v st))).
      unfold restockProduct in *. simpl in *.
      destruct (restock_loop threshold rest _) as [rest' st2]. simpl in *.
      now rewrite IH.
    + specialize (IH st).
      destruct (restock_loop threshold rest st) as [rest' st2]. simpl in *.
      now rewrite IH.
Qed.

Lemma restock_loop_files (threshold : Z) (entries : Inventory) :
  forall st,
    let st' := snd (restock_loop threshold entries st) in
    transaction_log_txt st'
    = transaction_log_txt st
      ++ map (restock_line (time_now st)) (filter (below threshold) entries)
    /\ inventory_txt st' = inventory_txt st
    /\ inventory st' = inventory st
    /\ time_now st' = time_now st.
Proof.
  induction entries as [| [k v] rest IH]; intros st; simpl.
  - rewrite app_nil_r. repeat split.
  - unfold below at 1; simpl.
    destruct (getStockQuantity v <? threshold); simpl.
    + specialize (IH (snd (restockProduct v st))).
      unfold restockProduct in *. simpl in *.
      destruct (restock_loop threshold rest _) as [rest' st2]. simpl in *.
      destruct IH as (Hlog & Hsnap & Hinv & Htime).
      rewrite Hlog, <- app_assoc. repeat split; assumption.
    + specialize (IH st).
      destruct (restock_loop threshold rest st) as [rest' st2]. simpl in *.
      exact IH.
Qed.

Lemma map_find_restock (threshold : Z) (name : string) (inv : Inventory) :
  map_find name (map (restock_entry threshold) inv)
  = match map_find name inv with
    | Some p =>
        Some (if stockQuantity p <? threshold
              then Product_updateStock restockAmount p else p)
    | None => None
    end.
Proof.
  induction inv as [| [k v] rest IH]; simpl.
  - reflexivity.
  - destruct (String.eqb k name); [reflexivity | exact IH].
Qed.

Lemma checkAndRestock_inventory (threshold : Z) (st : State) :
  inventory (checkAndRestock threshold st)
  = map (restock_entry threshold) (inventory st).
Proof.
  unfold checkAndRestock.
  pose proof (restock_loop_inventory threshold (inventory st) st) as H.
  destruct (restock_loop threshold (inventory st) st) as [inv' st']. simpl in *.
  exact H.
Qed.

Lemma checkAndRestock_files (threshold : Z) (st : State) :
  transaction_log_txt (checkAndRestock threshold st)
  = transaction_log_txt st
    ++ map (restock_line (time_now st)) (filter (below threshold) (inventory st))
  /\ inventory_txt (checkAndRestock threshold st) = inventory_txt st
  /\ time_now (checkAndRestock threshold st) = time_now st.
Proof.
  unfold checkAndRestock.
  pose proof (restock_loop_files threshold (inventory st) st) as H.
  destruct (restock_loop threshold (inventory st) st) as [inv' st']. simpl in *.
  destruct H as (Hlog & Hsnap & _ & Htime). repeat split; assumption.
Qed.

(** ** Selling through the manager *)

Lemma set_inventory_same (st : State) : set_inventory (inventory st) st = st.
Proof. now destruct st. Qed.

Lemma sell_absent (st : State) (name : string) (quantity : Z) :
  map_find name (inventory st) = None ->
  InventoryManager_sellProduct name quantity st = (false, st).
Proof.
  intros H. unfold InventoryManager_sellProduct. now rewrite H.
Qed.

Lemma sell_insufficient (st : State) (name : string) (quantity : Z) (p : Product) :
  map_find name (inventory st) = Some p -> stockQuantity p < quantity ->
  InventoryManager_sellProduct name quantity st = (false, st).
Proof.
  intros H Hlt. unfold InventoryManager_sellProduct, Product_sellProduct.
  rewrite H, geb_false by exact Hlt.
  now rewrite (map_store_same _ _ _ H), set_inventory_same.
Qed.

Lemma sell_sufficient (st : State) (name : string) (quantity : Z) (p : Product) :
  map_find name (inventory st) = Some p -> quantity <= stockQuantity p ->
  InventoryManager_sellProduct name quantity st
  = (true,
     logTransaction_int "Sale" name quantity
       (set_inventory
          (map_store name
             {| productName := productName p; price := price p;
                stockQuantity := int_sub (stockQuantity p) quantity;
                kind := kind p |} (inventory st)) st)).
Proof.
  intros H Hle. unfold InventoryManager_sellProduct, Product_sellProduct.
  now rewrite H, geb_true by exact Hle.
Qed.

(** ** What every session keeps true of the map *)

Lemma keyed_insert (product : Product) (inv : Inventory) :
  keyed_by_name inv ->
  keyed_by_name (map_insert (getProductName product) product inv).
Proof.
  unfold keyed_by_name, getProductName.
  induction inv as [| [k v] rest IH]; simpl; intros H.
  - constructor; [reflexivity | constructor].
  - inversion H as [| ? ? Hk Hrest]; subst.
    destruct (String.compare (productName product) k) eqn:E.
    + apply String.compare_eq_iff in E. subst k.
      constructor; [reflexivity | exact Hrest].
    + constructor; [reflexivity | exact H].
    + constructor; [exact Hk | now apply IH].
Qed.

Lemma keyed_find (name : string) (p : Product) (inv : Inventory) :
  keyed_by_name inv -> map_find name inv = Some p -> productName p = name.
Proof.
  unfold keyed_by_name.
  induction inv as [| [k v] rest IH]; simpl; intros H Hf.
  - discriminate.
  - inversion H as [| ? ? Hk Hrest]; subst. simpl in Hk.
    destruct (String.eqb k name) eqn:E.
    + apply String.eqb_eq in E. inversion Hf; subst. now symmetry.
    + now apply IH.
Qed.

Lemma keyed_store (name : string) (q : Product) (inv : Inventory) :
  keyed_by_name inv -> productName q = name ->
  keyed_by_name (map_store name q inv).
Proof.
  unfold keyed_by_name.
  induction inv as [| [k v] rest IH]; simpl; intros H Hq.
  - constructor.
  - inversion H as [| ? ? Hk Hrest]; subst.
    destruct (String.eqb k (productName q)) eqn:E.
    + apply String.eqb_eq in E. constructor; [exact E | exact Hrest].
    + constructor; [exact Hk | now apply IH].
Qed.

Lemma keyed_restock (threshold : Z) (inv : Inventory) :
  keyed_by_name inv -> keyed_by_name (map (restock_entry threshold) inv).
Proof.
  unfold keyed_by_name. intros H. apply Forall_map.
  eapply Forall_impl; [| exact H].
  intros [k v] Hk. unfold restock_entry. simpl in *.
  now destruct (getStockQuantity v <? threshold).
Qed.

Lemma sell_inventory (st : State) (name : string) (quantity : Z) :
  inventory (snd (InventoryManager_sellProduct name quantity st))
  = match map_find name (inventory st) with
    | Some p => map_store name (snd (Product_sellProduct quantity p)) (inventory st)
    | None => inventory st
    end.
Proof.
  unfold InventoryManager_sellProduct.
  destruct (map_find name (inventory st)) as [p |]; [| reflexivity].
  destruct (Product_sellProduct quantity p) as [[|] p']; reflexivity.
Qed.

Lemma applyDiscount_inventory (st : State) (name : string) (percentage : double) :
  inventory (InventoryManager_applyDiscount name percentage st)
  = match map_find name (inventory st) with
    | Some p => map_store name (Product_applyDiscount percentage p) (inventory st)
    | None => inventory st
    end.
Proof.
  unfold InventoryManager_applyDiscount.
  destruct (map_find name (inventory st)) as [p |]; reflexivity.
Qed.

Lemma sellProduct_keeps_name (quantity : Z) (p : Product) :
  productName (snd (Product_sellProduct quantity p)) = productName p
  /\ price (snd (Product_sellProduct quantity p)) = price p
  /\ kind (snd (Product_sellProduct quantity p)) = kind p.
Proof.
  unfold Product_sellProduct.
  destruct (stockQuantity p >=? quantity); repeat split.
Qed.

Lemma call_sorted_keyed (c : Call) (st : State) :
  StronglySorted key_lt (keys (inventory st)) /\ keyed_by_name (inventory st) ->
  StronglySorted key_lt (keys (inventory (call c st)))
  /\ keyed_by_name (inventory (call c st)).
Proof.
  intros [Hs Hk]. destruct c as [product | name q | name pct | threshold | |]; simpl.
  - unfold addProduct.
    destruct (map_find (getProductName product) (inventory st)); simpl.
    + now split.
    + split; [now apply sorted_insert | now apply keyed_insert].
  - rewrite sell_inventory.
    destruct (map_find name (inventory st)) as [p |] eqn:E; [| now split].
    split.
    + now rewrite keys_store.
    + apply keyed_store; [exact Hk |].
      destruct (sellProduct_keeps_name q p) as (-> & _).
      now apply keyed_find with (inv := inventory st).
  - rewrite applyDiscount_inventory.
    destruct (map_find name (inventory st)) as [p |] eqn:E; [| now split].
    split.
    + now rewrite keys_store.
    + apply keyed_store; [exact Hk |]. simpl.
      now apply keyed_find with (inv := inventory st).
  - rewrite checkAndRestock_inventory. split.
    + unfold keys. rewrite map_map. exact Hs.
    + now apply keyed_restock.
  - now split.
  - now split.
Qed.

Lemma run_sorted_keyed (calls : list Call) :
  forall st,
    StronglySorted key_lt (keys (inventory st)) /\ keyed_by_name (inventory st) ->
    StronglySorted key_lt (keys (inventory (run calls st)))
    /\ keyed_by_name (inventory (run calls st)).
Proof.
  induction calls as [| c calls IH]; intros st H; simpl.
  - exact H.
  - apply IH. now apply call_sorted_keyed.
Qed.

Lemma run_app (pre post : list Call) (st : State) :
  run (pre ++ post) st = run post (run pre st).
Proof. unfold run. apply fold_left_app. Qed.

(** * The claims *)

(** C1.  A sale request never drives [stockQuantity] negative.  Take any
    product whose stock is an [int], put it through any sequence of
    [updateStock] and [sellProduct] calls, and then ask to sell [quantity],
    where [quantity > 0] or, for the other quantities, [stock - quantity] is
    still an [int]: if the stock is at least [quantity] the call reports
    success and leaves [stock - quantity], which is not negative; otherwise it
    reports failure and leaves the product as it was. *)
Theorem sellProduct_never_negative :
  forall (p0 : Product) (calls : list ProductCall) (quantity : Z),
    int_range (stockQuantity p0) ->
    let p := product_run calls p0 in
    0 < quantity \/ stockQuantity p - quantity <= INT_MAX ->
    (stockQuantity p >= quantity ->
       Product_sellProduct quantity p
       = (true,
          {| productName := productName p; price := price p;
             stockQuantity := stockQuantity p - quantity; kind := kind p |})
       /\ 0 <= stockQuantity p - quantity)
    /\ (stockQuantity p < quantity -> Product_sellProduct quantity p = (false, p)).
Proof.
  intros p0 calls quantity Hrange p Hfit.
  assert (Hp : int_range (stockQuantity p)) by now apply product_run_range.
  unfold Product_sellProduct. split.
  - intros Hge. rewrite geb_true by lia.
    unfold int_sub. rewrite wrap_int_id.
    + split; [reflexivity | lia].
    + int_bounds.
  - intros Hlt. now rewrite geb_false.
Qed.

Lemma sellProduct_never_negative_witness :
  Product_sellProduct 4 (product_run [CallUpdateStock 10; CallProductSell 3] item_A)
  = (true,
     {| productName := "A"; price := double_of_int 3; stockQuantity := 8;
        kind := Food "2025-06-30" |})
  /\ Product_sellProduct 9 (product_run [CallProductSell 2] item_A)
     = (false, product_run [CallProductSell 2] item_A).
Proof.
  split.
  - apply (sellProduct_never_negative item_A [CallUpdateStock 10; CallProductSell 3] 4).
    + int_bounds.
    + left. lia.
    + vm_compute. discriminate.
  - apply (sellProduct_never_negative item_A [CallProductSell 2] 9).
    + int_bounds.
    + left. lia.
    + vm_compute. reflexivity.
Defined.

(** C2, at the top of the [int] range.  A product holding 2147483640 units is
    below the threshold 2147483647, so [checkAndRestock] restocks it; the
    32-bit addition of 10 comes back as -2147483646, which is not the stock
    plus 10. *)
Lemma checkAndRestock_wraps_near_int_max :
  map_find "Bulk" (inventory warehouse) = Some bulk
  /\ stockQuantity bulk < 2147483647
  /\ option_map stockQuantity
       (map_find "Bulk" (inventory (checkAndRestock 2147483647 warehouse)))
     = Some (-2147483646)
  /\ -2147483646 <> stockQuantity bulk + restockAmount.
Proof.
  split; [reflexivity |]. split; [simpl; lia |].
  split; [vm_compute; reflexivity | simpl; unfold restockAmount; lia].
Qed.

(** C2, as the code has it.  [checkAndRestock threshold] restocks exactly the
    products whose stock before the call is strictly below [threshold]: each
    of them goes through one [updateStock restockAmount], which leaves the
    stock plus 10 whenever that sum is an [int]; one Restock line with
    quantity 10 is appended for each of them, in key order; a product at or
    above the threshold keeps its value; no entry appears or disappears.
    Whether a product is restocked depends on its own stock before the call
    only. *)
Theorem checkAndRestock_restocks_below_threshold :
  forall (st : State) (threshold : Z),
    let st' := checkAndRestock threshold st in
    (forall name p,
        map_find name (inventory st) = Some p ->
        stockQuantity p < threshold ->
        map_find name (inventory st') = Some (Product_updateStock restockAmount p)
        /\ productName (Product_updateStock restockAmount p) = productName p
        /\ price (Product_updateStock restockAmount p) = price p
        /\ kind (Product_updateStock restockAmount p) = kind p
        /\ (int_range (stockQuantity p) ->
            stockQuantity p + 10 <= INT_MAX ->
            stockQuantity (Product_updateStock restockAmount p)
            = stockQuantity p + 10))
    /\ (forall name p,
           map_find name (inventory st) = Some p ->
           threshold <= stockQuantity p ->
           map_find name (inventory st') = Some p)
    /\ (forall name,
           map_find name (inventory st) = None ->
           map_find name (inventory st') = None)
    /\ keys (inventory st') = keys (inventory st)
    /\ transaction_log_txt st'
       = transaction_log_txt st
         ++ map (fun e => {| log_time := time_now st; log_type := "Restock";
                             log_productName := productName (snd e);
                             log_value := Quantity 10 |})
                (filter (fun e => stockQuantity (snd e) <? threshold) (inventory st))
    /\ inventory_txt st' = inventory_txt st.
Proof.
  intros st threshold st'. subst st'.
  destruct (checkAndRestock_files threshold st) as (Hlog & Hsnap & _).
  rewrite checkAndRestock_inventory.
  split; [| repeat split; try assumption].
  - intros name p H Hlt. repeat split.
    + rewrite map_find_restock, H.
      apply Z.ltb_lt in Hlt. now rewrite Hlt.
    + intros Hr Hfit. simpl. unfold int_add, restockAmount.
      apply wrap_int_id. int_bounds.
  - intros name p H Hge. rewrite map_find_restock, H.
    apply Z.ltb_ge in Hge. now rewrite Hge.
  - intros name H. now rewrite map_find_restock, H.
  - unfold keys. rewrite map_map. reflexivity.
Qed.

Lemma checkAndRestock_restocks_below_threshold_witness :
  (map_find "A" (inventory (checkAndRestock 10 shop))
   = Some (Product_updateStock restockAmount item_A)
   /\ stockQuantity (Product_updateStock restockAmount item_A) = 15)
  /\ map_find "B" (inventory (checkAndRestock 10 shop)) = Some item_B
  /\ stockQuantity item_B = 12.
Proof.
  destruct (checkAndRestock_restocks_below_threshold shop 10)
    as (Hbelow & Hkeep & _).
  split; [| split].
  - destruct (Hbelow "A" item_A) as (Hfind & _ & _ & _ & Hsum).
    + reflexivity.
    + simpl. lia.
    + split; [exact Hfind |].
      apply Hsum.
      * int_bounds.
      * int_bounds.
  - apply Hkeep.
    + reflexivity.
    + simpl. lia.
  - reflexivity.
Defined.

(** C3.  Adding a product whose name already has an entry leaves the map as
    it is: the entry found under that name is still there with its value,
    nothing is inserted, the number of entries is the same, and nothing is
    written to either file.  Hence adding the same product twice, or another
    product of the same name afterwards, gives the map of the first call. *)
Theorem addProduct_existing_name_is_noop :
  forall (st : State) (product : Product),
    (forall existing,
        map_find (getProductName product) (inventory st) = Some existing ->
        inventory (addProduct product st) = inventory st
        /\ map_find (getProductName product) (inventory (addProduct product st))
           = Some existing
        /\ List.length (inventory (addProduct product st))
           = List.length (inventory st)
        /\ transaction_log_txt (addProduct product st) = transaction_log_txt st
        /\ inventory_txt (addProduct product st) = inventory_txt st)
    /\ (forall again,
           getProductName again = getProductName product ->
           inventory (addProduct again (addProduct product st))
           = inventory (addProduct product st)
           /\ keys (inventory (addProduct again (addProduct product st)))
              = keys (inventory (addProduct product st))).
Proof.
  intros st product. split.
  - intros existing H. unfold addProduct. rewrite H. simpl.
    repeat split. exact H.
  - intros again Hname.
    assert (Hin : exists q,
               map_find (getProductName again) (inventory (addProduct product st))
               = Some q).
    { rewrite Hname. unfold addProduct.
      destruct (map_find (getProductName product) (inventory st)) as [q |] eqn:E.
      - exists q. simpl. exact E.
      - exists product. simpl. apply map_find_insert. }
    destruct Hin as [q Hq].
    assert (Heq : inventory (addProduct again (addProduct product st))
                  = inventory (addProduct product st)).
    { unfold addProduct at 1. rewrite Hq. reflexivity. }
    split; [exact Heq | now rewrite Heq].
Qed.

Lemma addProduct_existing_name_is_noop_witness :
  inventory (addProduct
               {| productName := "Gadget"; price := double_of_int 1;
                  stockQuantity := 99; kind := Food "2026-01-01" |} shop)
  = inventory shop
  /\ inventory (addProduct gadget (addProduct gadget (start [] [] 0)))
     = inventory (addProduct gadget (start [] [] 0)).
Proof.
  split.
  - apply (addProduct_existing_name_is_noop shop
             {| productName := "Gadget"; price := double_of_int 1;
                stockQuantity := 99; kind := Food "2026-01-01" |}) with gadget.
    reflexivity.
  - apply (addProduct_existing_name_is_noop (start [] [] 0) gadget).
    reflexivity.
Defined.

(** C4.  Selling a name that has no entry returns [false] and leaves the
    whole state as it is: map, both files and console.  Selling more than the
    stock of an existing product does the same.  Whatever the arguments, the
    log grows by exactly one Sale line when the call returns [true] and is
    unchanged when it returns [false]. *)
Theorem sellProduct_failure_writes_no_record :
  forall (st : State) (name : string) (quantity : Z),
    (map_find name (inventory st) = None ->
     InventoryManager_sellProduct name quantity st = (false, st))
    /\ (forall p,
           map_find name (inventory st) = Some p ->
           stockQuantity p < quantity ->
           InventoryManager_sellProduct name quantity st = (false, st))
    /\ (fst (InventoryManager_sellProduct name quantity st) = false ->
        transaction_log_txt (snd (InventoryManager_sellProduct name quantity st))
        = transaction_log_txt st)
    /\ (fst (InventoryManager_sellProduct name quantity st) = true ->
        transaction_log_txt (snd (InventoryManager_sellProduct name quantity st))
        = transaction_log_txt st
          ++ [{| log_time := time_now st; log_type := "Sale";
                 log_productName := name; log_value := Quantity quantity |}]).
Proof.
  intros st name quantity.
  split; [apply sell_absent |].
  split; [intros p; apply sell_insufficient |].
  destruct (map_find name (inventory st)) as [p |] eqn:E.
  - destruct (Z_lt_le_dec (stockQuantity p) quantity) as [Hlt | Hle].
    + rewrite (sell_insufficient _ _ _ _ E Hlt). simpl.
      split; [reflexivity | discriminate].
    + rewrite (sell_sufficient _ _ _ _ E Hle). simpl.
      split; [discriminate | reflexivity].
  - rewrite (sell_absent _ _ _ E). simpl.
    split; [reflexivity | discriminate].
Qed.

Lemma sellProduct_failure_writes_no_record_witness :
  InventoryManager_sellProduct "Widget" 3 shop = (false, shop)
  /\ InventoryManager_sellProduct "Gadget" 5 shop = (false, shop)
  /\ transaction_log_txt (snd (InventoryManager_sellProduct "Gadget" 3 shop))
     = [{| log_time := 1746800000; log_type := "Sale";
           log_productName := "Gadget"; log_value := Quantity 3 |}].
Proof.
  destruct (sellProduct_failure_writes_no_record shop "Widget" 3) as (Habsent & _).
  destruct (sellProduct_failure_writes_no_record shop "Gadget" 5) as (_ & Hshort & _).
  destruct (sellProduct_failure_writes_no_record shop "Gadget" 3) as (_ & _ & _ & Hsold).
  split; [| split].
  - apply Habsent. reflexivity.
  - apply (Hshort gadget); [reflexivity | simpl; lia].
  - apply Hsold. reflexivity.
Defined.

(** C5.  A discount of [percentage] on a product of price [P] sets the price
    to [P - P * (percentage / 100)], computed in doubles, for every
    [percentage]: nothing is rejected, and 150 percent takes a price of 100
    to -50.  Through the manager, on a name that has an entry, exactly one
    Discount line carrying [percentage] is appended to the log.  A price of
    100.0 discounted by 20 becomes 80.0. *)
Theorem applyDiscount_sets_price :
  (forall (st : State) (name : string) (p : Product) (percentage : double),
      map_find name (inventory st) = Some p ->
      let st' := InventoryManager_applyDiscount name percentage st in
      map_find name (inventory st')
      = Some {| productName := productName p;
                price := double_sub (price p)
                           (double_mul (price p)
                              (double_div percentage (double_of_int 100)));
                stockQuantity := stockQuantity p;
                kind := kind p |}
      /\ transaction_log_txt st'
         = transaction_log_txt st
           ++ [{| log_time := time_now st; log_type := "Discount";
                  log_productName := name; log_value := Discount percentage |}])
  /\ (forall (name : string) (stock : Z) (k : Kind),
         price (Product_applyDiscount (double_of_int 20)
                  {| productName := name; price := double_of_int 100;
                     stockQuantity := stock; kind := k |})
         = double_of_int 80)
  /\ (forall (name : string) (stock : Z) (k : Kind),
         price (Product_applyDiscount (double_of_int 150)
                  {| productName := name; price := double_of_int 100;
                     stockQuantity := stock; kind := k |})
         = double_of_int (-50)
         /\ double_ltb (double_of_int (-50)) (double_of_int 0) = true).
Proof.
  split; [| split].
  - intros st name p percentage H st'. subst st'.
    unfold InventoryManager_applyDiscount. rewrite H. simpl.
    rewrite map_find_store, H. split; reflexivity.
  - intros name stock k. vm_compute. reflexivity.
  - intros name stock k. split; vm_compute; reflexivity.
Qed.

Lemma applyDiscount_sets_price_witness :
  option_map price
    (map_find "Gadget"
       (inventory (InventoryManager_applyDiscount "Gadget" (double_of_int 20) shop)))
  = Some (double_of_int 80)
  /\ transaction_log_txt
       (InventoryManager_applyDiscount "Gadget" (double_of_int 20) shop)
     = [{| log_time := 1746800000; log_type := "Discount";
           log_productName := "Gadget";
           log_value := Discount (double_of_int 20) |}].
Proof.
  destruct applyDiscount_sets_price as (Hgen & _).
  destruct (Hgen shop "Gadget" gadget (double_of_int 20)) as (Hfind & Hlog).
  - reflexivity.
  - split.
    + rewrite Hfind. vm_compute. reflexivity.
    + exact Hlog.
Defined.

(** C6.  In every state a session can reach, [saveInventoryToFile] leaves in
    [inventory.txt] exactly one line for each product, of the form
    [name | type | stock | ] with the type being Electronics or Food, in the
    order of the map, whose keys are the product names in strictly ascending
    order.  Whatever the file held before is gone: after any further calls a
    second save leaves the lines of the state it is called in and nothing
    else.  The map, the log and the console are not touched. *)
Theorem saveInventoryToFile_rewrites_snapshot :
  forall (log : list LogLine) (snapshot : list string) (t : Z) (calls : list Call),
    let st := run calls (start log snapshot t) in
    inventory_txt (saveInventoryToFile st)
    = map (fun e =>
             (productName (snd e) ++ " | "
              ++ match kind (snd e) with
                 | Electronics _ => "Electronics"
                 | Food _ => "Food"
                 end
              ++ " | " ++ string_of_int (stockQuantity (snd e)) ++ " | ")%string)
          (inventory st)
    /\ List.length (inventory_txt (saveInventoryToFile st))
       = List.length (inventory st)
    /\ StronglySorted key_lt (keys (inventory st))
    /\ keys (inventory st) = map (fun e => productName (snd e)) (inventory st)
    /\ (forall more : list Call,
           let st2 := run more (saveInventoryToFile st) in
           inventory_txt (saveInventoryToFile st2)
           = map snapshot_line (inventory st2))
    /\ inventory (saveInventoryToFile st) = inventory st
    /\ transaction_log_txt (saveInventoryToFile st) = transaction_log_txt st
    /\ cout (saveInventoryToFile st) = cout st.
Proof.
  intros log snapshot t calls st.
  assert (H : StronglySorted key_lt (keys (inventory st))
              /\ keyed_by_name (inventory st)).
  { apply run_sorted_keyed. simpl. split; constructor. }
  destruct H as [Hs Hk].
  assert (Hkeys : keys (inventory st)
                  = map (fun e => productName (snd e)) (inventory st)).
  { unfold keys. apply map_ext_in. intros e He.
    unfold keyed_by_name in Hk. rewrite Forall_forall in Hk. now apply Hk. }
  repeat split; try assumption.
  - simpl. apply map_ext_in. intros e He.
    unfold keyed_by_name in Hk. rewrite Forall_forall in Hk.
    unfold snapshot_line, getProductType, getStockQuantity.
    now rewrite (Hk e He).
  - simpl. apply length_map.
Qed.

(** The three sample products were added as B, Gadget, A; the file lists
    them by key, and a second save after a sale replaces the three lines. *)
Example snapshot_of_shop :
  inventory_txt (saveInventoryToFile shop)
  = ["A | Food | 5 | "; "B | Food | 12 | "; "Gadget | Electronics | 4 | "]
  /\ inventory_txt
       (saveInventoryToFile
          (run [CallSellProduct "B" 2] (saveInventoryToFile shop)))
     = ["A | Food | 5 | "; "B | Food | 10 | "; "Gadget | Electronics | 4 | "].
Proof. split; vm_compute; reflexivity. Qed.

(** C7.  The log is append-only.  Each of the two [logTransaction] overloads
    appends exactly one line and keeps all earlier lines.  For every call of
    the manager, and for every sequence of calls cut at any point, the log
    before is a prefix of the log after. *)
Theorem transaction_log_append_only :
  forall (st : State),
    (forall type name quantity,
        transaction_log_txt (logTransaction_int type name quantity st)
        = transaction_log_txt st
          ++ [{| log_time := time_now st; log_type := type;
                 log_productName := name; log_value := Quantity quantity |}])
    /\ (forall type name percentage,
           transaction_log_txt (logTransaction_double type name percentage st)
           = transaction_log_txt st
             ++ [{| log_time := time_now st; log_type := type;
                    log_productName := name; log_value := Discount percentage |}])
    /\ (forall c : Call,
           exists written,
             transaction_log_txt (call c st) = transaction_log_txt st ++ written)
    /\ (forall pre post : list Call,
           exists written,
             transaction_log_txt (run (pre ++ post) st)
             = transaction_log_txt (run pre st) ++ written).
Proof.
  assert (Hcall : forall (c : Call) (s : State),
             exists written,
               transaction_log_txt (call c s) = transaction_log_txt s ++ written).
  { intros c s. destruct c as [product | name q | name pct | threshold | |]; simpl.
    - exists []. rewrite app_nil_r. unfold addProduct.
      now destruct (map_find (getProductName product) (inventory s)).
    - unfold InventoryManager_sellProduct.
      destruct (map_find name (inventory s)) as [p |].
      + destruct (Product_sellProduct q p) as [[|] p']; simpl.
        * eexists. reflexivity.
        * exists []. now rewrite app_nil_r.
      + exists []. now rewrite app_nil_r.
    - unfold InventoryManager_applyDiscount.
      destruct (map_find name (inventory s)) as [p |]; simpl.
      + eexists. reflexivity.
      + exists []. now rewrite app_nil_r.
    - destruct (checkAndRestock_files threshold s) as (Hlog & _).
      eexists. exact Hlog.
    - exists []. now rewrite app_nil_r.
    - exists []. now rewrite app_nil_r. }
  assert (Hrun : forall (calls : list Call) (s : State),
             exists written,
               transaction_log_txt (run calls s) = transaction_log_txt s ++ written).
  { induction calls as [| c calls IH]; intros s; simpl.
    - exists []. now rewrite app_nil_r.
    - destruct (IH (call c s)) as [w2 H2]. destruct (Hcall c s) as [w1 H1].
      exists (w1 ++ w2). fold (run calls (call c s)).
      now rewrite H2, H1, app_assoc. }
  intros st. split; [| split; [| split]].
  - reflexivity.
  - reflexivity.
  - intros c. apply Hcall.
  - intros pre post. rewrite run_app. apply Hrun.
Qed.

Lemma call_keeps_name_and_kind (c : Call) (st : State) (name : string) (p : Product) :
  map_find name (inventory st) = Some p ->
  exists p',
    map_find name (inventory (call c st)) = Some p'
    /\ productName p' = productName p /\ kind p' = kind p.
Proof.
  intros H. destruct c as [product | sold q | cut pct | threshold | |]; simpl.
  - unfold addProduct.
    destruct (map_find (getProductName product) (inventory st)) eqn:E; simpl.
    + now exists p.
    + exists p. rewrite map_find_insert_other; [now repeat split |].
      intros ->. congruence.
  - rewrite sell_inventory.
    destruct (map_find sold (inventory st)) as [p0 |] eqn:E; [| now exists p].
    destruct (string_dec name sold) as [-> | Hne].
    + rewrite map_find_store, E. eexists. split; [reflexivity |].
      assert (p0 = p) by congruence. subst p0.
      destruct (sellProduct_keeps_name q p) as (Hn & _ & Hk). now split.
    + exists p. rewrite map_find_store_other by exact Hne. now repeat split.
  - rewrite applyDiscount_inventory.
    destruct (map_find cut (inventory st)) as [p0 |] eqn:E; [| now exists p].
    destruct (string_dec name cut) as [-> | Hne].
    + rewrite map_find_store, E. eexists. split; [reflexivity |].
      assert (p0 = p) by congruence. subst p0. now split.
    + exists p. rewrite map_find_store_other by exact Hne. now repeat split.
  - rewrite checkAndRestock_inventory, map_find_restock, H.
    eexists. split; [reflexivity |].
    now destruct (stockQuantity p <? threshold).
  - now exists p.
  - now exists p.
Qed.

(** C8.  Only [price] and [stockQuantity] ever change.  The three mutators of
    a product keep its name and its warranty period or expiration date;
    [applyDiscount] also keeps the stock, [updateStock] and [sellProduct] the
    price.  Through any sequence of manager calls a product that is in the
    map stays there under its name with the same name and the same
    variant field.  A sale leaves every product its price and every product
    other than the one named its whole value; a discount leaves every product
    its stock and every product other than the one named its whole value. *)
Theorem only_price_and_stock_are_mutated :
  (forall (p : Product) (percentage : double),
      productName (Product_applyDiscount percentage p) = productName p
      /\ kind (Product_applyDiscount percentage p) = kind p
      /\ stockQuantity (Product_applyDiscount percentage p) = stockQuantity p)
  /\ (forall (p : Product) (quantity : Z),
         productName (Product_updateStock quantity p) = productName p
         /\ kind (Product_updateStock quantity p) = kind p
         /\ price (Product_updateStock quantity p) = price p)
  /\ (forall (p : Product) (quantity : Z),
         productName (snd (Product_sellProduct quantity p)) = productName p
         /\ kind (snd (Product_sellProduct quantity p)) = kind p
         /\ price (snd (Product_sellProduct quantity p)) = price p)
  /\ (forall (calls : list Call) (st : State) (name : string) (p : Product),
         map_find name (inventory st) = Some p ->
         exists p',
           map_find name (inventory (run calls st)) = Some p'
           /\ productName p' = productName p /\ kind p' = kind p)
  /\ (forall (st : State) (name : string) (quantity : Z) (other : string)
             (q : Product),
         map_find other (inventory st) = Some q ->
         let st' := snd (InventoryManager_sellProduct name quantity st) in
         (other <> name -> map_find other (inventory st') = Some q)
         /\ exists q',
             map_find other (inventory st') = Some q'
             /\ price q' = price q
             /\ productName q' = productName q /\ kind q' = kind q)
  /\ (forall (st : State) (name : string) (percentage : double) (other : string)
             (q : Product),
         map_find other (inventory st) = Some q ->
         let st' := InventoryManager_applyDiscount name percentage st in
         (other <> name -> map_find other (inventory st') = Some q)
         /\ exists q',
             map_find other (inventory st') = Some q'
             /\ stockQuantity q' = stockQuantity q
             /\ productName q' = productName q /\ kind q' = kind q).
Proof.
  split; [| split; [| split; [| split; [| split]]]].
  - intros p percentage. repeat split.
  - intros p quantity. repeat split.
  - intros p quantity.
    destruct (sellProduct_keeps_name quantity p) as (Hn & Hp & Hk). now repeat split.
  - induction calls as [| c calls IH]; intros st name p H; simpl.
    + now exists p.
    + destruct (call_keeps_name_and_kind c st name p H) as (p1 & H1 & Hn1 & Hk1).
      destruct (IH (call c st) name p1 H1) as (p2 & H2 & Hn2 & Hk2).
      exists p2. split; [exact H2 |]. split; congruence.
  - intros st name quantity other q H st'. subst st'.
    rewrite sell_inventory.
    destruct (map_find name (inventory st)) as [p |] eqn:E.
    + split.
      * intros Hne. now rewrite map_find_store_other.
      * destruct (string_dec other name) as [-> | Hne].
        -- rewrite map_find_store, E. eexists. split; [reflexivity |].
           assert (p = q) by congruence. subst p.
           destruct (sellProduct_keeps_name quantity q) as (Hn & Hp & Hk).
           now repeat split.
        -- exists q. rewrite map_find_store_other by exact Hne. now repeat split.
    + split; [now intros _ | now exists q].
  - intros st name percentage other q H st'. subst st'.
    rewrite applyDiscount_inventory.
    destruct (map_find name (inventory st)) as [p |] eqn:E.
    + split.
      * intros Hne. now rewrite map_find_store_other.
      * destruct (string_dec other name) as [-> | Hne].
        -- rewrite map_find_store, E. eexists. split; [reflexivity |].
           assert (p = q) by congruence. subst p. now repeat split.
        -- exists q. rewrite map_find_store_other by exact Hne. now repeat split.
    + split; [now intros _ | now exists q].
Qed.

Lemma only_price_and_stock_are_mutated_witness :
  (exists p',
      map_find "Gadget"
        (inventory (run [CallSellProduct "Gadget" 1;
                         CallApplyDiscount "Gadget" (double_of_int 20);
                         CallCheckAndRestock 10] shop)) = Some p'
      /\ productName p' = "Gadget" /\ kind p' = Electronics 24)
  /\ map_find "A" (inventory (snd (InventoryManager_sellProduct "Gadget" 1 shop)))
     = Some item_A
  /\ map_find "A"
       (inventory (InventoryManager_applyDiscount "Gadget" (double_of_int 20) shop))
     = Some item_A.
Proof.
  destruct only_price_and_stock_are_mutated as (_ & _ & _ & Hrun & Hsell & Hcut).
  split; [| split].
  - apply (Hrun _ shop "Gadget" gadget). reflexivity.
  - apply (Hsell shop "Gadget" 1 "A" item_A); [reflexivity | discriminate].
  - apply (Hcut shop "Gadget" (double_of_int 20) "A" item_A);
      [reflexivity | discriminate].
Defined.

(** C9, at the bottom of the [int] range.  The sample Gadget has 4 units.
    Selling -2147483648 of it succeeds, and the 32-bit subtraction leaves
    -2147483644 units: less than before, and not the stock minus the
    quantity. *)
Lemma sellProduct_wraps_on_int_min :
  map_find "Gadget" (inventory shop) = Some gadget
  /\ 0 <= stockQuantity gadget
  /\ fst (InventoryManager_sellProduct "Gadget" (-2147483648) shop) = true
  /\ option_map stockQuantity
       (map_find "Gadget"
          (inventory (snd (InventoryManager_sellProduct "Gadget" (-2147483648) shop))))
     = Some (-2147483644)
  /\ -2147483644 < stockQuantity gadget
  /\ -2147483644 <> stockQuantity gadget - (-2147483648).
Proof.
  split; [reflexivity |]. split; [simpl; lia |].
  split; [vm_compute; reflexivity |].
  split; [vm_compute; reflexivity |].
  split; simpl; lia.
Qed.

(** C9, as the code has it.  Nothing in the manager or in the product checks
    that the quantity sold is positive.  For a product in the map with
    non-negative stock and a quantity [quantity <= 0] such that
    [stock - quantity] is still an [int], the sale returns [true], the stock
    becomes [stock - quantity], which is at least the old stock and larger
    when [quantity] is negative, and one Sale line carrying [quantity] is
    appended to the log. *)
Theorem sellProduct_accepts_nonpositive_quantity :
  forall (st : State) (name : string) (p : Product) (quantity : Z),
    map_find name (inventory st) = Some p ->
    0 <= stockQuantity p ->
    quantity <= 0 ->
    stockQuantity p - quantity <= INT_MAX ->
    let r := InventoryManager_sellProduct name quantity st in
    fst r = true
    /\ map_find name (inventory (snd r))
       = Some {| productName := productName p; price := price p;
                 stockQuantity := stockQuantity p - quantity; kind := kind p |}
    /\ stockQuantity p <= stockQuantity p - quantity
    /\ (quantity < 0 -> stockQuantity p < stockQuantity p - quantity)
    /\ transaction_log_txt (snd r)
       = transaction_log_txt st
         ++ [{| log_time := time_now st; log_type := "Sale";
                log_productName := name; log_value := Quantity quantity |}].
Proof.
  intros st name p quantity H Hstock Hq Hfit r. subst r.
  rewrite (sell_sufficient _ _ _ _ H) by lia. simpl.
  rewrite map_find_store, H.
  unfold int_sub. rewrite wrap_int_id.
  - repeat split; lia.
  - int_bounds.
Qed.

Lemma sellProduct_accepts_nonpositive_quantity_witness :
  fst (InventoryManager_sellProduct "Gadget" (-3) shop) = true
  /\ map_find "Gadget"
       (inventory (snd (InventoryManager_sellProduct "Gadget" (-3) shop)))
     = Some {| productName := "Gadget"; price := double_of_int 100;
               stockQuantity := 7; kind := Electronics 24 |}
  /\ transaction_log_txt (snd (InventoryManager_sellProduct "Gadget" (-3) shop))
     = [{| log_time := 1746800000; log_type := "Sale";
           log_productName := "Gadget"; log_value := Quantity (-3) |}].
Proof.
  destruct (sellProduct_accepts_nonpositive_quantity shop "Gadget" gadget (-3))
    as (Hok & Hfind & _ & _ & Hlog).
  - reflexivity.
  - simpl. lia.
  - lia.
  - int_bounds.
  - split; [exact Hok | split; [exact Hfind | exact Hlog]].
Defined.

(** C10.  The caller of [sellProduct] cannot tell its two failures apart.
    For a name with no entry and for a name whose product has less stock than
    asked, the call returns the same [false], and in both cases the state
    after the call is the state before it: nothing is printed, nothing is
    written to a file. *)
Theorem sellProduct_failures_look_alike :
  forall (st : State) (absent present : string) (p : Product)
         (quantity quantity' : Z),
    map_find absent (inventory st) = None ->
    map_find present (inventory st) = Some p ->
    stockQuantity p < quantity' ->
    InventoryManager_sellProduct absent quantity st = (false, st)
    /\ InventoryManager_sellProduct present quantity' st = (false, st)
    /\ InventoryManager_sellProduct absent quantity st
       = InventoryManager_sellProduct present quantity' st.
Proof.
  intros st absent present p quantity quantity' Habsent Hpresent Hshort.
  rewrite (sell_absent _ _ _ Habsent).
  rewrite (sell_insufficient _ _ _ _ Hpresent Hshort).
  repeat split.
Qed.

Lemma sellProduct_failures_look_alike_witness :
  InventoryManager_sellProduct "Widget" 3 shop
  = InventoryManager_sellProduct "Gadget" 5 shop.
Proof.
  apply (sellProduct_failures_look_alike shop "Widget" "Gadget" gadget 3 5).
  - reflexivity.
  - reflexivity.
  - simpl. lia.
Defined.

(** * Further properties of the manager *)

(** ** More about the map *)

Lemma map_find_keys (name : string) (inv : Inventory) :
  map_find name inv = None <-> ~ In name (keys inv).
Proof.
  induction inv as [| [k v] rest IH]; simpl.
  - split; [intros _ [] | reflexivity].
  - destruct (String.eqb k name) eqn:E.
    + apply String.eqb_eq in E. split; [discriminate | intros H; exfalso; auto].
    + apply String.eqb_neq in E. rewrite IH. split.
      * intros H [Hk | Hin]; auto.
      * intros H Hin. apply H. now right.
Qed.

Lemma map_find_In (name : string) (p : Product) (inv : Inventory) :
  map_find name inv = Some p -> In (name, p) inv.
Proof.
  induction inv as [| [k v] rest IH]; simpl; intros H.
  - discriminate.
  - destruct (String.eqb k name) eqn:E.
    + apply String.eqb_eq in E. inversion H; subst. now left.
    + right. now apply IH.
Qed.

Lemma keys_insert (name k : string) (p : Product) (inv : Inventory) :
  In k (keys (map_insert name p inv)) <-> k = name \/ In k (keys inv).
Proof.
  induction inv as [| [k0 v] rest IH]; simpl.
  - intuition.
  - destruct (String.compare name k0) eqn:E; simpl.
    + apply String.compare_eq_iff in E. subst k0. intuition.
    + intuition.
    + rewrite IH. intuition.
Qed.

Lemma length_insert_absent (name : string) (p : Product) (inv : Inventory) :
  map_find name inv = None ->
  List.length (map_insert name p inv) = S (List.length inv).
Proof.
  induction inv as [| [k v] rest IH]; simpl; intros H.
  - reflexivity.
  - destruct (String.eqb k name) eqn:E; [discriminate |].
    destruct (String.compare name k) eqn:C; simpl.
    + apply String.compare_eq_iff in C. subst k.
      rewrite String.eqb_refl in E. discriminate.
    + reflexivity.
    + now rewrite IH.
Qed.

(** X1.  Adding a product whose name has no entry yet puts it in the map: it
    is what a lookup of its name finds afterwards, every other name is found
    as before, the map has one entry more, and nothing is printed or written
    to either file. *)
Theorem addProduct_new_name_is_found :
  forall (st : State) (product : Product),
    map_find (getProductName product) (inventory st) = None ->
    let st' := addProduct product st in
    map_find (getProductName product) (inventory st') = Some product
    /\ (forall other,
           other <> getProductName product ->
           map_find other (inventory st') = map_find other (inventory st))
    /\ List.length (inventory st') = S (List.length (inventory st))
    /\ cout st' = cout st
    /\ transaction_log_txt st' = transaction_log_txt st
    /\ inventory_txt st' = inventory_txt st.
Proof.
  intros st product H st'. subst st'. unfold addProduct. rewrite H. simpl.
  split; [apply map_find_insert |].
  split; [intros other Hne; now apply map_find_insert_other |].
  split; [now apply length_insert_absent |].
  repeat split.
Qed.

Lemma addProduct_new_name_is_found_witness :
  map_find "Bulk" (inventory (addProduct bulk shop)) = Some bulk
  /\ map_find "Gadget" (inventory (addProduct bulk shop)) = Some gadget
  /\ List.length (inventory (addProduct bulk shop)) = 4%nat.
Proof.
  destruct (addProduct_new_name_is_found shop bulk) as (Hnew & Hold & Hlen & _).
  - reflexivity.
  - split; [exact Hnew |]. split; [| exact Hlen].
    rewrite Hold; [reflexivity | discriminate].
Defined.

Lemma run_keeps_name_and_kind (calls : list Call) :
  forall (st : State) (name : string) (p : Product),
    map_find name (inventory st) = Some p ->
    exists p',
      map_find name (inventory (run calls st)) = Some p'
      /\ productName p' = productName p /\ kind p' = kind p.
Proof.
  induction calls as [| c calls IH]; intros st name p H; simpl.
  - now exists p.
  - destruct (call_keeps_name_and_kind c st name p H) as (p1 & H1 & Hn1 & Hk1).
    destruct (IH (call c st) name p1 H1) as (p2 & H2 & Hn2 & Hk2).
    exists p2. split; [exact H2 |]. split; congruence.
Qed.

Lemma call_keeps_absent (c : Call) (st : State) (name : string) :
  map_find name (inventory st) = None ->
  (forall product, c = CallAddProduct product -> getProductName product <> name) ->
  map_find name (inventory (call c st)) = None.
Proof.
  intros H Hc. destruct c as [product | sold q | cut pct | threshold | |]; simpl.
  - unfold addProduct.
    destruct (map_find (getProductName product) (inventory st)); simpl.
    + exact H.
    + rewrite map_find_insert_other; [exact H |].
      intros E. now apply (Hc product).
  - rewrite sell_inventory.
    destruct (map_find sold (inventory st)) as [p |] eqn:E; [| exact H].
    destruct (string_dec name sold) as [-> | Hne]; [congruence |].
    now rewrite map_find_store_other.
  - rewrite applyDiscount_inventory.
    destruct (map_find cut (inventory st)) as [p |] eqn:E; [| exact H].
    destruct (string_dec name cut) as [-> | Hne]; [congruence |].
    now rewrite map_find_store_other.
  - now rewrite checkAndRestock_inventory, map_find_restock, H.
  - exact H.
  - exact H.
Qed.

Lemma first_added_wins_from (calls : list Call) :
  forall (st : State) (name : string),
    map_find name (inventory st) = None ->
    match first_added name calls with
    | Some first =>
        productName first = name
        /\ exists p,
            map_find name (inventory (run calls st)) = Some p
            /\ productName p = name /\ kind p = kind first
    | None => map_find name (inventory (run calls st)) = None
    end.
Proof.
  induction calls as [| c calls IH]; intros st name H; simpl.
  - exact H.
  - destruct c as [product | sold q | cut pct | threshold | |];
      try (apply IH; apply call_keeps_absent; [exact H | discriminate]).
    destruct (String.eqb (getProductName product) name) eqn:E.
    + apply String.eqb_eq in E. split; [exact E |].
      assert (Hin : map_find name (inventory (addProduct product st)) = Some product).
      { unfold addProduct. rewrite E, H. simpl. rewrite <- E. apply map_find_insert. }
      destruct (run_keeps_name_and_kind calls _ _ _ Hin) as (p & Hp & Hn & Hk).
      exists p. split; [exact Hp |]. split; [| exact Hk].
      rewrite Hn. exact E.
    + apply String.eqb_neq in E. apply IH.
      apply call_keeps_absent; [exact H |].
      intros product' Heq. inversion Heq; subst. exact E.
Qed.

(** X2.  The first product added under a name is the one the map keeps.
    After any sequence of calls on a fresh manager, a name is in the map
    exactly when some call added a product of that name, and the entry then
    has the name and the warranty period or expiration date of the first such
    product, whatever was added under the same name later. *)
Theorem first_added_product_is_kept :
  forall (log : list LogLine) (snapshot : list string) (t : Z)
         (calls : list Call) (name : string),
    match first_added name calls with
    | Some first =>
        productName first = name
        /\ exists p,
            map_find name (inventory (run calls (start log snapshot t))) = Some p
            /\ productName p = name /\ kind p = kind first
    | None => map_find name (inventory (run calls (start log snapshot t))) = None
    end.
Proof.
  intros log snapshot t calls name.
  apply first_added_wins_from. reflexivity.
Qed.

(** ** The order of the additions *)

Lemma key_lt_gt (a b : string) : key_lt a b -> String.compare b a = Gt.
Proof.
  unfold key_lt. intros H. rewrite String.compare_antisym, H. reflexivity.
Qed.

Lemma compare_eq_sym (a b : string) : String.compare a b = Eq -> String.compare b a = Eq.
Proof.
  intros H. apply String.compare_eq_iff in H. subst. apply compare_refl.
Qed.

Lemma map_insert_comm (a b : string) (pa pb : Product) (inv : Inventory) :
  a <> b ->
  map_insert a pa (map_insert b pb inv) = map_insert b pb (map_insert a pa inv).
Proof.
  intros Hne.
  assert (Hab : String.compare a b <> Eq).
  { intros E. apply String.compare_eq_iff in E. contradiction. }
  assert (Hba : String.compare b a <> Eq).
  { intros E. apply String.compare_eq_iff in E. congruence. }
  induction inv as [| [k v] rest IH]; simpl.
  - destruct (String.compare a b) eqn:Cab; [contradiction | |].
    + now rewrite (key_lt_gt _ _ Cab).
    + pose proof (compare_gt_lt _ _ Cab) as Hlt. unfold key_lt in Hlt.
      now rewrite Hlt.
  - destruct (String.compare a k) eqn:Ca; destruct (String.compare b k) eqn:Cb; simpl.
    + apply String.compare_eq_iff in Ca, Cb. congruence.
    + (* a = k, b < k *)
      pose proof (String.compare_eq_iff _ _ Ca) as ->.
      rewrite (key_lt_gt _ _ Cb), Cb. simpl. now rewrite compare_refl.
    + (* a = k, b > k *)
      now rewrite Ca, Cb.
    + (* a < k, b = k *)
      pose proof (String.compare_eq_iff _ _ Cb) as ->.
      rewrite Ca, (key_lt_gt _ _ Ca). simpl. now rewrite compare_refl.
    + (* a < k, b < k *)
      destruct (String.compare a b) eqn:Cab; [contradiction | |].
      * rewrite (key_lt_gt _ _ Cab). simpl. now rewrite Cb.
      * pose proof (compare_gt_lt _ _ Cab) as Hlt. unfold key_lt in Hlt.
        rewrite Hlt. simpl. now rewrite Ca.
    + (* a < k < b *)
      rewrite Ca.
      pose proof (key_lt_trans _ _ _ Ca (compare_gt_lt _ _ Cb)) as Hlt.
      rewrite (key_lt_gt _ _ Hlt). simpl. now rewrite Cb.
    + (* a > k, b = k *)
      now rewrite Ca, Cb.
    + (* b < k < a *)
      rewrite Cb.
      pose proof (key_lt_trans _ _ _ Cb (compare_gt_lt _ _ Ca)) as Hlt.
      rewrite (key_lt_gt _ _ Hlt). simpl. now rewrite Ca.
    + (* a > k, b > k *)
      now rewrite Ca, Cb, IH.
Qed.

Lemma addProduct_inventory (product : Product) (st : State) :
  inventory (addProduct product st)
  = match map_find (getProductName product) (inventory st) with
    | Some _ => inventory st
    | None => map_insert (getProductName product) product (inventory st)
    end.
Proof.
  unfold addProduct.
  now destruct (map_find (getProductName product) (inventory st)).
Qed.

Lemma addProduct_comm (x y : Product) (st : State) :
  getProductName x <> getProductName y ->
  inventory (addProduct y (addProduct x st))
  = inventory (addProduct x (addProduct y st)).
Proof.
  intros Hne. rewrite !addProduct_inventory.
  destruct (map_find (getProductName x) (inventory st)) eqn:Ex;
    destruct (map_find (getProductName y) (inventory st)) eqn:Ey;
    rewrite ?Ex, ?Ey, ?map_find_insert_other, ?Ex, ?Ey by congruence;
    try reflexivity.
  apply map_insert_comm. congruence.
Qed.

Lemma run_adds_inventory (products : list Product) :
  forall st1 st2,
    inventory st1 = inventory st2 ->
    inventory (run (map CallAddProduct products) st1)
    = inventory (run (map CallAddProduct products) st2).
Proof.
  induction products as [| x products IH]; intros st1 st2 H; simpl.
  - exact H.
  - apply IH. rewrite !addProduct_inventory. now rewrite H.
Qed.

(** X3.  The order in which products of different names are added does not
    matter: two sequences of [addProduct] calls that add the same products,
    no two of them with the same name, lead from any state to the same map,
    and so to the same lines in [inventory.txt] at the next save. *)
Theorem addProduct_order_is_irrelevant :
  forall (products1 products2 : list Product),
    Permutation products1 products2 ->
    NoDup (map getProductName products1) ->
    forall st : State,
      inventory (run (map CallAddProduct products1) st)
      = inventory (run (map CallAddProduct products2) st)
      /\ inventory_txt
           (saveInventoryToFile (run (map CallAddProduct products1) st))
         = inventory_txt
             (saveInventoryToFile (run (map CallAddProduct products2) st)).
Proof.
  intros products1 products2 Hperm Hnodup st.
  assert (Hinv : inventory (run (map CallAddProduct products1) st)
                 = inventory (run (map CallAddProduct products2) st)).
  { revert st. induction Hperm as [| x l l' Hp IH | x y l | l l' l'' Hp1 IH1 Hp2 IH2];
      intros st; simpl.
    - reflexivity.
    - apply IH. simpl in Hnodup. now inversion Hnodup.
    - apply run_adds_inventory. apply addProduct_comm.
      simpl in Hnodup. inversion Hnodup as [| ? ? Hnotin _]; subst.
      intros E. apply Hnotin. left. now symmetry.
    - rewrite IH1 by exact Hnodup. apply IH2.
      apply (Permutation_NoDup (Permutation_map getProductName Hp1) Hnodup). }
  split; [exact Hinv |]. simpl. now rewrite Hinv.
Qed.

Lemma addProduct_order_is_irrelevant_witness :
  inventory (run (map CallAddProduct [item_A; item_B; gadget]) (start [] [] 1746800000))
  = inventory shop.
Proof.
  apply (addProduct_order_is_irrelevant [item_A; item_B; gadget]
           [item_B; gadget; item_A]).
  - apply Permutation_cons_append with (l := [item_B; gadget]).
  - simpl. repeat constructor; simpl; intuition discriminate.
Defined.

(** ** Discounts and sales *)

(** X4.  A discount on a name that has no entry changes no product and
    writes no log line: the only effect is the notice "Product not found."
    on the console.  A discount on a name that has an entry prints nothing. *)
Theorem applyDiscount_unknown_name_only_prints :
  forall (st : State) (name : string) (percentage : double),
    (map_find name (inventory st) = None ->
     let st' := InventoryManager_applyDiscount name percentage st in
     inventory st' = inventory st
     /\ transaction_log_txt st' = transaction_log_txt st
     /\ inventory_txt st' = inventory_txt st
     /\ cout st' = (cout st ++ "Product not found." ++ newline)%string)
    /\ (forall p,
           map_find name (inventory st) = Some p ->
           cout (InventoryManager_applyDiscount name percentage st) = cout st).
Proof.
  intros st name percentage. unfold InventoryManager_applyDiscount. split.
  - intros H. rewrite H. simpl. repeat split.
  - intros p H. rewrite H. reflexivity.
Qed.

Lemma applyDiscount_unknown_name_only_prints_witness :
  inventory (InventoryManager_applyDiscount "Widget" (double_of_int 20) shop)
  = inventory shop
  /\ transaction_log_txt (InventoryManager_applyDiscount "Widget" (double_of_int 20) shop)
     = []
  /\ cout (InventoryManager_applyDiscount "Gadget" (double_of_int 20) shop) = cout shop.
Proof.
  destruct (applyDiscount_unknown_name_only_prints shop "Widget" (double_of_int 20))
    as (Habsent & _).
  destruct (applyDiscount_unknown_name_only_prints shop "Gadget" (double_of_int 20))
    as (_ & Hpresent).
  destruct Habsent as (Hinv & Hlog & _); [reflexivity |].
  split; [exact Hinv |]. split; [exact Hlog |].
  apply (Hpresent gadget). reflexivity.
Defined.

Lemma map_store_twice (name : string) (a b : Product) (inv : Inventory) :
  map_store name b (map_store name a inv) = map_store name b inv.
Proof.
  induction inv as [| [k v] rest IH]; simpl.
  - reflexivity.
  - destruct (String.eqb k name) eqn:E; simpl; rewrite E.
    + reflexivity.
    + now rewrite IH.
Qed.

(** X5.  Two sales add up.  If a product holds at least [q1 + q2] units,
    with [q1] and [q2] not negative, selling [q1] and then [q2] succeeds
    twice and leaves the map exactly as one sale of [q1 + q2] does; the log
    shows the two sales as two lines. *)
Theorem two_sales_leave_the_stock_of_one :
  forall (st : State) (name : string) (p : Product) (q1 q2 : Z),
    map_find name (inventory st) = Some p ->
    stockQuantity p <= INT_MAX ->
    0 <= q1 -> 0 <= q2 -> q1 + q2 <= stockQuantity p ->
    let r1 := InventoryManager_sellProduct name q1 st in
    let r2 := InventoryManager_sellProduct name q2 (snd r1) in
    fst r1 = true /\ fst r2 = true
    /\ inventory (snd r2)
       = inventory (snd (InventoryManager_sellProduct name (q1 + q2) st))
    /\ map_find name (inventory (snd r2))
       = Some {| productName := productName p; price := price p;
                 stockQuantity := stockQuantity p - q1 - q2; kind := kind p |}
    /\ transaction_log_txt (snd r2)
       = transaction_log_txt st
         ++ [{| log_time := time_now st; log_type := "Sale";
                log_productName := name; log_value := Quantity q1 |};
             {| log_time := time_now st; log_type := "Sale";
                log_productName := name; log_value := Quantity q2 |}].
Proof.
  intros st name p q1 q2 H Hmax H1 H2 Hsum r1 r2. subst r1 r2.
  rewrite (sell_sufficient _ _ _ _ H) by lia. simpl.
  assert (E1 : int_sub (stockQuantity p) q1 = stockQuantity p - q1).
  { apply wrap_int_id. int_bounds. }
  rewrite E1.
  set (p1 := {| productName := productName p; price := price p;
                stockQuantity := stockQuantity p - q1; kind := kind p |}).
  set (st1 := logTransaction_int "Sale" name q1
                (set_inventory (map_store name p1 (inventory st)) st)).
  assert (Hf1 : map_find name (inventory st1) = Some p1).
  { unfold st1. simpl. now rewrite map_find_store, H. }
  rewrite (sell_sufficient _ _ _ _ Hf1) by (simpl; lia).
  rewrite (sell_sufficient _ _ _ _ H) by lia. simpl.
  assert (E2 : int_sub (stockQuantity p - q1) q2 = stockQuantity p - q1 - q2).
  { apply wrap_int_id. int_bounds. }
  assert (E3 : int_sub (stockQuantity p) (q1 + q2) = stockQuantity p - q1 - q2).
  { unfold int_sub. rewrite wrap_int_id by int_bounds. lia. }
  rewrite E2, E3, map_store_twice, map_find_store, H, <- app_assoc.
  repeat split.
Qed.

Lemma two_sales_leave_the_stock_of_one_witness :
  inventory (snd (InventoryManager_sellProduct "B" 7
                    (snd (InventoryManager_sellProduct "B" 5 shop))))
  = inventory (snd (InventoryManager_sellProduct "B" (5 + 7) shop)).
Proof.
  apply (two_sales_leave_the_stock_of_one shop "B" item_B 5 7).
  - reflexivity.
  - int_bounds.
  - lia.
  - lia.
  - simpl. lia.
Defined.

(** X6.  Selling exactly what is in stock succeeds and leaves 0 units; from
    then on every sale of a positive quantity of that product fails and
    changes nothing. *)
Theorem selling_the_whole_stock_empties_it :
  forall (st : State) (name : string) (p : Product),
    map_find name (inventory st) = Some p ->
    0 <= stockQuantity p <= INT_MAX ->
    let r := InventoryManager_sellProduct name (stockQuantity p) st in
    fst r = true
    /\ map_find name (inventory (snd r))
       = Some {| productName := productName p; price := price p;
                 stockQuantity := 0; kind := kind p |}
    /\ (forall quantity,
           0 < quantity ->
           InventoryManager_sellProduct name quantity (snd r) = (false, snd r)).
Proof.
  intros st name p H Hrange r. subst r.
  rewrite (sell_sufficient _ _ _ _ H) by lia. simpl.
  assert (E : int_sub (stockQuantity p) (stockQuantity p) = 0).
  { unfold int_sub. rewrite Z.sub_diag. reflexivity. }
  rewrite E, map_find_store, H.
  split; [reflexivity |]. split; [reflexivity |].
  intros quantity Hq. eapply sell_insufficient.
  - simpl. rewrite map_find_store, H. reflexivity.
  - simpl. exact Hq.
Qed.

Lemma selling_the_whole_stock_empties_it_witness :
  fst (InventoryManager_sellProduct "Gadget" 4 shop) = true
  /\ InventoryManager_sellProduct "Gadget" 1
       (snd (InventoryManager_sellProduct "Gadget" 4 shop))
     = (false, snd (InventoryManager_sellProduct "Gadget" 4 shop)).
Proof.
  destruct (selling_the_whole_stock_empties_it shop "Gadget" gadget)
    as (Hok & _ & Hafter).
  - reflexivity.
  - int_bounds.
  - split; [exact Hok |]. apply Hafter. lia.
Defined.

(** ** Restocking *)

Lemma restock_loop_nothing_below (threshold : Z) (entries : Inventory) :
  Forall (fun e => threshold <= stockQuantity (snd e)) entries ->
  forall st, restock_loop threshold entries st = (entries, st).
Proof.
  induction entries as [| [k v] rest IH]; intros H st; simpl.
  - reflexivity.
  - inversion H as [| ? ? Hv Hrest]; subst. simpl in Hv.
    unfold getStockQuantity.
    apply Z.ltb_ge in Hv. rewrite Hv, (IH Hrest). reflexivity.
Qed.

(** X7.  When no product is below the threshold, and in particular when the
    map is empty, [checkAndRestock] changes nothing at all: no stock, no log
    line, nothing on the console. *)
Theorem checkAndRestock_without_low_stock_is_noop :
  forall (st : State) (threshold : Z),
    Forall (fun e => threshold <= stockQuantity (snd e)) (inventory st) ->
    checkAndRestock threshold st = st.
Proof.
  intros st threshold H. unfold checkAndRestock.
  rewrite (restock_loop_nothing_below _ _ H). apply set_inventory_same.
Qed.

Lemma checkAndRestock_without_low_stock_is_noop_witness :
  checkAndRestock 4 shop = shop
  /\ checkAndRestock 100 (start [] [] 0) = start [] [] 0.
Proof.
  split.
  - apply checkAndRestock_without_low_stock_is_noop.
    repeat constructor; simpl; lia.
  - apply checkAndRestock_without_low_stock_is_noop. constructor.
Defined.

Lemma append_assoc (a b c : string) : ((a ++ b) ++ c = a ++ (b ++ c))%string.
Proof.
  induction a as [| ch a IH]; simpl; [reflexivity | now rewrite IH].
Qed.

Lemma append_empty (a : string) : (a ++ "" = a)%string.
Proof.
  induction a as [| ch a IH]; simpl; [reflexivity | now rewrite IH].
Qed.

Lemma restock_loop_cout (threshold : Z) (entries : Inventory) :
  forall st,
    cout (snd (restock_loop threshold entries st))
    = (cout st ++ join (map restock_message (filter (below threshold) entries)))%string.
Proof.
  induction entries as [| [k v] rest IH]; intros st; simpl.
  - now rewrite append_empty.
  - unfold below at 1; simpl.
    destruct (getStockQuantity v <? threshold); simpl.
    + specialize (IH (snd (restockProduct v st))).
      destruct (restock_loop threshold rest (snd (restockProduct v st)))
        as [rest' st2] eqn:E.
      unfold restockProduct in E. simpl in E. rewrite E. simpl in *.
      rewrite IH. unfold restock_message. simpl. now rewrite append_assoc.
    + specialize (IH st).
      destruct (restock_loop threshold rest st) as [rest' st2]. simpl in *.
      exact IH.
Qed.

(** X8.  [checkAndRestock] prints one notice, "Restocked <name> by 10
    units.", for each product whose stock was below the threshold, in key
    order, and nothing else; the number of log lines it appends is the number
    of those products. *)
Theorem checkAndRestock_prints_one_notice_each :
  forall (st : State) (threshold : Z),
    let low := filter (fun e => stockQuantity (snd e) <? threshold) (inventory st) in
    cout (checkAndRestock threshold st)
    = (cout st
       ++ join (map (fun e => "Restocked " ++ productName (snd e) ++ " by 10 units."
                              ++ newline) low))%string
    /\ List.length (transaction_log_txt (checkAndRestock threshold st))
       = (List.length (transaction_log_txt st) + List.length low)%nat.
Proof.
  intros st threshold low. subst low. split.
  - unfold checkAndRestock.
    pose proof (restock_loop_cout threshold (inventory st) st) as H.
    destruct (restock_loop threshold (inventory st) st) as [inv' st']. simpl in *.
    exact H.
  - destruct (checkAndRestock_files threshold st) as (Hlog & _).
    rewrite Hlog, length_app, length_map. reflexivity.
Qed.

(** X9.  One call restocks a product once, however far below the threshold
    it is.  A product whose stock is still below the threshold (at most
    [INT_MAX - 9]) after [n] additions of 10 holds, after [n + 1] calls with
    that threshold, its stock plus [10 * (n + 1)] units. *)
Theorem checkAndRestock_adds_ten_per_call :
  forall (n : nat) (st : State) (threshold : Z) (name : string) (p : Product),
    map_find name (inventory st) = Some p ->
    int_range (stockQuantity p) ->
    stockQuantity p + 10 * Z.of_nat n < threshold ->
    threshold <= INT_MAX - 9 ->
    map_find name
      (inventory (run (repeat (CallCheckAndRestock threshold) (S n)) st))
    = Some {| productName := productName p; price := price p;
              stockQuantity := stockQuantity p + 10 * Z.of_nat (S n);
              kind := kind p |}.
Proof.
  induction n as [| n IH]; intros st threshold name p H Hr Hlow Hmax.
  - simpl. rewrite checkAndRestock_inventory, map_find_restock, H.
    assert (E : (stockQuantity p <? threshold) = true) by (apply Z.ltb_lt; lia).
    rewrite E. unfold Product_updateStock, int_add, restockAmount.
    rewrite wrap_int_id by int_bounds. reflexivity.
  - change (run (repeat (CallCheckAndRestock threshold) (S (S n))) st)
      with (run (repeat (CallCheckAndRestock threshold) (S n))
              (checkAndRestock threshold st)).
    assert (E : (stockQuantity p <? threshold) = true) by (apply Z.ltb_lt; lia).
    assert (H1 : map_find name (inventory (checkAndRestock threshold st))
                 = Some {| productName := productName p; price := price p;
                           stockQuantity := stockQuantity p + 10;
                           kind := kind p |}).
    { rewrite checkAndRestock_inventory, map_find_restock, H, E.
      unfold Product_updateStock, int_add, restockAmount.
      now rewrite wrap_int_id by int_bounds. }
    rewrite (IH _ threshold name _ H1).
    + cbn [productName price stockQuantity kind]. do 2 f_equal. lia.
    + cbn [stockQuantity]. int_bounds.
    + cbn [stockQuantity]. lia.
    + exact Hmax.
Qed.

Lemma checkAndRestock_adds_ten_per_call_witness :
  map_find "A"
    (inventory (run (repeat (CallCheckAndRestock 30) 3) shop))
  = Some {| productName := "A"; price := double_of_int 3; stockQuantity := 35;
            kind := Food "2025-06-30" |}.
Proof.
  apply (checkAndRestock_adds_ten_per_call 2 shop 30 "A" item_A).
  - reflexivity.
  - int_bounds.
  - simpl. lia.
  - int_bounds.
Defined.

(** ** The two files over a session *)

Lemma call_keeps_snapshot (c : Call) (st : State) :
  c <> CallSaveInventoryToFile -> inventory_txt (call c st) = inventory_txt st.
Proof.
  intros Hc. destruct c as [product | name q | name pct | threshold | |]; simpl.
  - unfold addProduct.
    now destruct (map_find (getProductName product) (inventory st)).
  - unfold InventoryManager_sellProduct.
    destruct (map_find name (inventory st)) as [p |]; [| reflexivity].
    now destruct (Product_sellProduct q p) as [[|] p'].
  - unfold InventoryManager_applyDiscount.
    now destruct (map_find name (inventory st)).
  - now destruct (checkAndRestock_files threshold st) as (_ & Hsnap & _).
  - contradiction.
  - reflexivity.
Qed.

Lemma run_keeps_snapshot (calls : list Call) :
  forall st,
    ~ In CallSaveInventoryToFile calls ->
    inventory_txt (run calls st) = inventory_txt st.
Proof.
  induction calls as [| c calls IH]; intros st H; simpl.
  - reflexivity.
  - rewrite IH by (intros Hin; apply H; now right).
    apply call_keeps_snapshot. intros ->. apply H. now left.
Qed.

(** X10.  Only [saveInventoryToFile] writes [inventory.txt].  However many
    calls follow a save, as long as none of them is another save the file
    still holds the lines of the map as it was at that save, whatever was
    sold, discounted, restocked or added since; and a sequence of calls with
    no save in it leaves the file as it found it. *)
Theorem inventory_txt_shows_the_last_save :
  forall (st : State) (before after : list Call),
    ~ In CallSaveInventoryToFile after ->
    inventory_txt (run (before ++ CallSaveInventoryToFile :: after) st)
    = map snapshot_line (inventory (run before st))
    /\ inventory_txt (run after st) = inventory_txt st.
Proof.
  intros st before after H. split.
  - rewrite run_app. simpl.
    change (fold_left (fun s c => call c s) after ?x) with (run after x).
    now rewrite run_keeps_snapshot.
  - now apply run_keeps_snapshot.
Qed.

Lemma inventory_txt_shows_the_last_save_witness :
  inventory_txt
    (run ([CallSellProduct "B" 2]
          ++ CallSaveInventoryToFile
             :: [CallSellProduct "B" 3; CallCheckAndRestock 10]) shop)
  = ["A | Food | 5 | "; "B | Food | 10 | "; "Gadget | Electronics | 4 | "].
Proof.
  rewrite (proj1 (inventory_txt_shows_the_last_save shop [CallSellProduct "B" 2]
                    [CallSellProduct "B" 3; CallCheckAndRestock 10]
                    ltac:(simpl; intuition discriminate))).
  vm_compute. reflexivity.
Defined.

Lemma call_keys_grow (c : Call) (st : State) (k : string) :
  In k (keys (inventory st)) -> In k (keys (inventory (call c st))).
Proof.
  intros H. destruct c as [product | name q | name pct | threshold | |]; simpl.
  - rewrite addProduct_inventory.
    destruct (map_find (getProductName product) (inventory st)); [exact H |].
    apply keys_insert. now right.
  - rewrite sell_inventory.
    destruct (map_find name (inventory st)); [now rewrite keys_store | exact H].
  - rewrite applyDiscount_inventory.
    destruct (map_find name (inventory st)); [now rewrite keys_store | exact H].
  - rewrite checkAndRestock_inventory. unfold keys. rewrite map_map. exact H.
  - exact H.
  - exact H.
Qed.

Lemma run_keys_grow (calls : list Call) :
  forall (st : State) (k : string),
    In k (keys (inventory st)) -> In k (keys (inventory (run calls st))).
Proof.
  induction calls as [| c calls IH]; intros st k H; simpl.
  - exact H.
  - apply IH. now apply call_keys_grow.
Qed.

Lemma map_find_key (name : string) (p : Product) (inv : Inventory) :
  map_find name inv = Some p -> In name (keys inv).
Proof.
  intros H. apply map_find_In in H.
  unfold keys. now apply (in_map fst) in H.
Qed.

Lemma call_log_lines (c : Call) (st : State) :
  keyed_by_name (inventory st) ->
  exists written,
    transaction_log_txt (call c st) = transaction_log_txt st ++ written
    /\ Forall (fun l => In (log_productName l) (keys (inventory (call c st)))
                        /\ log_line_shape l) written.
Proof.
  intros Hk. destruct c as [product | name q | name pct | threshold | |]; simpl.
  - exists []. split; [| constructor]. rewrite app_nil_r. unfold addProduct.
    now destruct (map_find (getProductName product) (inventory st)).
  - destruct (map_find name (inventory st)) as [p |] eqn:E.
    + destruct (Z_lt_le_dec (stockQuantity p) q) as [Hlt | Hle].
      * rewrite (sell_insufficient _ _ _ _ E Hlt). simpl.
        exists []. split; [now rewrite app_nil_r | constructor].
      * rewrite (sell_sufficient _ _ _ _ E Hle). simpl.
        eexists. split; [reflexivity |].
        constructor; [| constructor]. simpl. split.
        -- rewrite keys_store. now apply map_find_key with (p := p).
        -- left. split; [reflexivity | now exists q].
    + rewrite (sell_absent _ _ _ E). simpl.
      exists []. split; [now rewrite app_nil_r | constructor].
  - unfold InventoryManager_applyDiscount.
    destruct (map_find name (inventory st)) as [p |] eqn:E; simpl.
    + eexists. split; [reflexivity |].
      constructor; [| constructor]. simpl. split.
      * rewrite keys_store. now apply map_find_key with (p := p).
      * right. left. split; [reflexivity | now exists pct].
    + exists []. split; [now rewrite app_nil_r | constructor].
  - destruct (checkAndRestock_files threshold st) as (Hlog & _).
    eexists. split; [exact Hlog |].
    rewrite checkAndRestock_inventory.
    apply Forall_map. apply Forall_forall. intros e He.
    apply filter_In in He. destruct He as [He _]. simpl. split.
    + unfold keys. rewrite map_map. simpl.
      unfold keyed_by_name in Hk. rewrite Forall_forall in Hk.
      rewrite <- (Hk e He). now apply (in_map fst).
    + right. right. split; reflexivity.
  - exists []. split; [now rewrite app_nil_r | constructor].
  - exists []. split; [now rewrite app_nil_r | constructor].
Qed.

Lemma run_log_lines (calls : list Call) :
  forall st,
    StronglySorted key_lt (keys (inventory st)) /\ keyed_by_name (inventory st) ->
    exists written,
      transaction_log_txt (run calls st) = transaction_log_txt st ++ written
      /\ Forall (fun l => In (log_productName l) (keys (inventory (run calls st)))
                          /\ log_line_shape l) written.
Proof.
  induction calls as [| c calls IH]; intros st H; simpl.
  - exists []. split; [now rewrite app_nil_r | constructor].
  - destruct (call_log_lines c st (proj2 H)) as (w1 & H1 & F1).
    destruct (IH (call c st) (call_sorted_keyed c st H)) as (w2 & H2 & F2).
    fold (run calls (call c st)).
    exists (w1 ++ w2). split; [now rewrite H2, H1, app_assoc |].
    apply Forall_app. split; [| exact F2].
    eapply Forall_impl; [| exact F1].
    intros l [Hin Hshape]. split; [| exact Hshape].
    now apply run_keys_grow.
Qed.

(** X11.  Every line a session writes to [transaction_log.txt] is a Sale
    line with a quantity, a Discount line with a percentage or a Restock line
    with quantity 10, and names a product that is in the map at the end of
    the session: nothing is ever logged for a name the manager does not
    hold, and no product that was logged ever leaves the map. *)
Theorem log_lines_name_products_in_the_map :
  forall (log : list LogLine) (snapshot : list string) (t : Z) (calls : list Call),
    let st := run calls (start log snapshot t) in
    exists written,
      transaction_log_txt st = log ++ written
      /\ Forall (fun l => In (log_productName l) (keys (inventory st))
                          /\ log_line_shape l) written.
Proof.
  intros log snapshot t calls st. subst st.
  apply (run_log_lines calls (start log snapshot t)).
  simpl. split; constructor.
Qed.

(** ** Stock over a session *)

Lemma stock_in_range_insert (name : string) (p : Product) (inv : Inventory) :
  0 <= stockQuantity p <= INT_MAX ->
  Forall stock_in_range inv -> Forall stock_in_range (map_insert name p inv).
Proof.
  intros Hp. induction inv as [| [k v] rest IH]; simpl; intros H.
  - constructor; [exact Hp | constructor].
  - inversion H as [| ? ? Hv Hrest]; subst.
    destruct (String.compare name k).
    + constructor; [exact Hp | exact Hrest].
    + constructor; [exact Hp | exact H].
    + constructor; [exact Hv | now apply IH].
Qed.

Lemma stock_in_range_store (name : string) (p : Product) (inv : Inventory) :
  0 <= stockQuantity p <= INT_MAX ->
  Forall stock_in_range inv -> Forall stock_in_range (map_store name p inv).
Proof.
  intros Hp. induction inv as [| [k v] rest IH]; simpl; intros H.
  - constructor.
  - inversion H as [| ? ? Hv Hrest]; subst.
    destruct (String.eqb k name).
    + constructor; [exact Hp | exact Hrest].
    + constructor; [exact Hv | now apply IH].
Qed.

Lemma stock_in_range_find (name : string) (p : Product) (inv : Inventory) :
  Forall stock_in_range inv -> map_find name inv = Some p ->
  0 <= stockQuantity p <= INT_MAX.
Proof.
  intros H Hf. apply map_find_In in Hf.
  rewrite Forall_forall in H. exact (H _ Hf).
Qed.

Lemma call_stock_in_range (c : Call) (st : State) :
  validated c ->
  Forall stock_in_range (inventory st) ->
  Forall stock_in_range (inventory (call c st)).
Proof.
  intros Hc H. destruct c as [product | name q | name pct | threshold | |]; simpl in *.
  - rewrite addProduct_inventory.
    destruct (map_find (getProductName product) (inventory st)); [exact H |].
    now apply stock_in_range_insert.
  - rewrite sell_inventory.
    destruct (map_find name (inventory st)) as [p |] eqn:E; [| exact H].
    pose proof (stock_in_range_find _ _ _ H E) as Hp.
    apply stock_in_range_store; [| exact H].
    unfold Product_sellProduct.
    destruct (Z_lt_le_dec (stockQuantity p) q) as [Hlt | Hle].
    + rewrite geb_false by exact Hlt. exact Hp.
    + rewrite geb_true by exact Hle. simpl.
      unfold int_sub. rewrite wrap_int_id by int_bounds. lia.
  - rewrite applyDiscount_inventory.
    destruct (map_find name (inventory st)) as [p |] eqn:E; [| exact H].
    apply stock_in_range_store; [| exact H].
    exact (stock_in_range_find _ _ _ H E).
  - rewrite checkAndRestock_inventory. apply Forall_map.
    eapply Forall_impl; [| exact H].
    intros [k v] Hv. unfold stock_in_range, restock_entry, getStockQuantity in *.
    simpl in *. destruct (stockQuantity v <? threshold) eqn:E; [| exact Hv].
    apply Z.ltb_lt in E. simpl. unfold int_add, restockAmount.
    rewrite wrap_int_id by int_bounds. int_bounds.
  - exact H.
  - exact H.
Qed.

(** X12.  With the bounds [main] puts on its inputs, stock never goes
    negative.  In a session on a fresh manager where every product is added
    with a stock of at least 0, every sale asks for at least 1 unit and every
    restock threshold is at most [INT_MAX - 9], the stock of every product in
    the map is between 0 and [INT_MAX] after every call. *)
Theorem stock_stays_non_negative :
  forall (log : list LogLine) (snapshot : list string) (t : Z) (calls : list Call),
    Forall validated calls ->
    Forall (fun e => 0 <= stockQuantity (snd e) <= INT_MAX)
           (inventory (run calls (start log snapshot t))).
Proof.
  intros log snapshot t calls.
  assert (Hgen : forall st,
             Forall validated calls ->
             Forall stock_in_range (inventory st) ->
             Forall stock_in_range (inventory (run calls st))).
  { induction calls as [| c calls IH]; intros st Hv H; simpl.
    - exact H.
    - inversion Hv as [| ? ? Hc Hrest]; subst.
      apply IH; [exact Hrest |]. now apply call_stock_in_range. }
  intros Hv. apply Hgen; [exact Hv | constructor].
Qed.

Lemma stock_stays_non_negative_witness :
  Forall (fun e => 0 <= stockQuantity (snd e) <= INT_MAX)
         (inventory
            (run [CallAddProduct item_B; CallAddProduct gadget;
                  CallSellProduct "Gadget" 4; CallSellProduct "Gadget" 1;
                  CallCheckAndRestock 10; CallSellProduct "B" 20]
                 (start [] [] 1746800000))).
Proof.
  apply stock_stays_non_negative.
  repeat constructor; simpl; int_bounds.
Defined.

(** X13.  A discount of zero percent leaves every finite non-zero price as
    it is, bit for bit, so the map does not change; the manager still
    appends a Discount line for it. *)
Theorem zero_percent_discount_keeps_the_price :
  forall (st : State) (name : string) (p : Product)
         (negative : bool) (m : positive) (e : Z),
    map_find name (inventory st) = Some p ->
    price p = S754_finite negative m e ->
    let st' := InventoryManager_applyDiscount name (double_of_int 0) st in
    inventory st' = inventory st
    /\ transaction_log_txt st'
       = transaction_log_txt st
         ++ [{| log_time := time_now st; log_type := "Discount";
                log_productName := name;
                log_value := Discount (double_of_int 0) |}].
Proof.
  intros st name p negative m e H Hprice st'. subst st'.
  unfold InventoryManager_applyDiscount. rewrite H. simpl.
  split; [| reflexivity].
  apply map_store_same. rewrite H. f_equal.
  destruct p as [n pr s k]. simpl in *. subst pr.
  unfold Product_applyDiscount. simpl. reflexivity.
Qed.

Lemma zero_percent_discount_keeps_the_price_witness :
  inventory (InventoryManager_applyDiscount "Gadget" (double_of_int 0) shop)
  = inventory shop.
Proof.
  apply (zero_percent_discount_keeps_the_price shop "Gadget" gadget
           false 7036874417766400 (-46)).
  - reflexivity.
  - reflexivity.
Defined.

(** X14.  Taking delivery and selling the same quantity cancel out: for a
    product with non-negative stock and a quantity [quantity >= 0] such that
    [stock + quantity] is an [int], [updateStock quantity] followed by
    [sellProduct quantity] reports success and gives back the product as it
    was. *)
Theorem updateStock_then_sellProduct_restores :
  forall (p : Product) (quantity : Z),
    0 <= stockQuantity p ->
    0 <= quantity ->
    stockQuantity p + quantity <= INT_MAX ->
    Product_sellProduct quantity (Product_updateStock quantity p) = (true, p).
Proof.
  intros p quantity Hs Hq Hfit.
  unfold Product_sellProduct, Product_updateStock. simpl.
  unfold int_add. rewrite wrap_int_id by int_bounds.
  rewrite geb_true by lia.
  unfold int_sub. rewrite wrap_int_id by int_bounds.
  replace (stockQuantity p + quantity - quantity) with (stockQuantity p) by lia.
  now destruct p.
Qed.

Lemma updateStock_then_sellProduct_restores_witness :
  Product_sellProduct 10 (Product_updateStock 10 item_A) = (true, item_A).
Proof.
  apply updateStock_then_sellProduct_restores.
  - simpl. lia.
  - lia.
  - int_bounds.
Defined.

(** ** Price and stock are independent *)

Lemma map_store_comm (a b : string) (pa pb : Product) (inv : Inventory) :
  a <> b ->
  map_store a pa (map_store b pb inv) = map_store b pb (map_store a pa inv).
Proof.
  intros Hne. induction inv as [| [k v] rest IH]; simpl.
  - reflexivity.
  - destruct (String.eqb k a) eqn:Ea; destruct (String.eqb k b) eqn:Eb; simpl;
      rewrite ?Ea, ?Eb; try reflexivity.
    + apply String.eqb_eq in Ea, Eb. congruence.
    + now rewrite IH.
Qed.

Lemma sell_result (st : State) (name : string) (quantity : Z) :
  fst (InventoryManager_sellProduct name quantity st)
  = match map_find name (inventory st) with
    | Some p => stockQuantity p >=? quantity
    | None => false
    end.
Proof.
  unfold InventoryManager_sellProduct, Product_sellProduct.
  destruct (map_find name (inventory st)) as [p |]; [| reflexivity].
  now destruct (stockQuantity p >=? quantity).
Qed.

Lemma discount_sell_product_comm (percentage : double) (quantity : Z) (p : Product) :
  Product_applyDiscount percentage (snd (Product_sellProduct quantity p))
  = snd (Product_sellProduct quantity (Product_applyDiscount percentage p)).
Proof.
  unfold Product_sellProduct, Product_applyDiscount. simpl.
  now destruct (stockQuantity p >=? quantity).
Qed.

(** X15.  A discount and a sale do not interfere, whether they are for the
    same product or for two different ones: in either order the sale has the
    same outcome and the map ends up the same. *)
Theorem discount_and_sale_commute :
  forall (st : State) (sold : string) (quantity : Z) (cut : string)
         (percentage : double),
    fst (InventoryManager_sellProduct sold quantity
           (InventoryManager_applyDiscount cut percentage st))
    = fst (InventoryManager_sellProduct sold quantity st)
    /\ inventory
         (snd (InventoryManager_sellProduct sold quantity
                 (InventoryManager_applyDiscount cut percentage st)))
       = inventory
           (InventoryManager_applyDiscount cut percentage
              (snd (InventoryManager_sellProduct sold quantity st))).
Proof.
  intros st sold quantity cut percentage.
  rewrite !sell_result.
  repeat (rewrite sell_inventory || rewrite applyDiscount_inventory).
  destruct (string_dec sold cut) as [-> | Hne].
  - destruct (map_find cut (inventory st)) as [p |] eqn:E.
    + rewrite !map_find_store, E. split; [reflexivity |].
      rewrite !map_store_twice. now rewrite discount_sell_product_comm.
    + rewrite E. now split.
  - destruct (map_find cut (inventory st)) as [pc |] eqn:Ec;
      destruct (map_find sold (inventory st)) as [ps |] eqn:Es;
      rewrite ?map_find_store_other, ?Ec, ?Es by congruence;
      split; try reflexivity.
    apply map_store_comm. exact Hne.
Qed.
